(** * cuML acceleration registry of autogluon.common, and the demo's dispatch

    A shallow embedding of
      - [autogluon/common/utils/cuml_accel_utils.py]: the availability check,
        the per-module activation routine and the two query helpers, over the
        two module globals [_activated_modules] and [_accelerator];
      - [demo-cuml-accel.py]: the [match] of [_run_autogluon_demo].

    The external collaborators (the [cuml.accel] package, its [Accelerator]
    class, the AutoML predictor) are opaque to the source; here every call
    into them is answered by an [external] record that the caller of the
    model supplies, and is written to a journal together with the log
    records, so that statements can speak about which external calls a run
    made and how they ended. *)

From Stdlib Require Import Ascii.
From stdpp Require Import base option gmap strings list.

(* ===================================================================== *)
(** ** Python strings: [str.replace] *)
(* ===================================================================== *)

Module PyStr.

(** [old] occurs in [s] at the current scan position. *)
Definition starts_with (old s : string) : bool := String.prefix old s.

(** Scan of [str.replace] for a non-empty [old]: left to right, each
    occurrence found is replaced and the scan resumes after it, so that
    occurrences never overlap.  [skip] counts the characters of the
    occurrence just replaced that are still to be passed over. *)
Fixpoint replace_from (old new : string) (skip : nat) (s : string) : string :=
  match s with
  | EmptyString => EmptyString
  | String c s' =>
      match skip with
      | S k => replace_from old new k s'
      | O =>
          if starts_with old s
          then new +:+ replace_from old new (Nat.pred (String.length old)) s'
          else String c (replace_from old new 0 s')
      end
  end.

(** With an empty [old], Python puts [new] before every character and at
    the end. *)
Fixpoint interleave (new s : string) : string :=
  match s with
  | EmptyString => new
  | String c s' => new +:+ String c (interleave new s')
  end.

(** [s.replace(old, new)], every occurrence (no [count] argument). *)
Definition replace (s old new : string) : string :=
  match old with
  | EmptyString => interleave new s
  | String _ _ => replace_from old new 0 s
  end.

(** [old in s] *)
Fixpoint occurs (old s : string) : bool :=
  starts_with old s ||
  match s with
  | EmptyString => false
  | String _ s' => occurs old s'
  end.

End PyStr.

(** Line 99: [wrapper_module = module_name.replace("sklearn",
    "cuml.accel._wrappers.sklearn")]. *)
Definition wrapper_module (module_name : string) : string :=
  PyStr.replace module_name "sklearn" "cuml.accel._wrappers.sklearn".

(** The rule in the words of the specification: only the leading token
    [sklearn] is replaced by the wrapper namespace token; the rest of the
    name is kept as it is. *)
Definition spec_wrapper_module (module_name : string) : string :=
  if PyStr.starts_with "sklearn" module_name
  then "cuml.accel._wrappers.sklearn" +:+ String.substring 7 (String.length module_name - 7) module_name
  else module_name.

(* ===================================================================== *)
(** ** Exceptions and outcomes *)
(* ===================================================================== *)

(** The part of Python's exception hierarchy that the two [except] clauses
    of the source tell apart. *)
Inductive exc_class : Type :=
  | ImportError
  | ModuleNotFoundError                 (* a subclass of ImportError *)
  | ValueError
  | ExceptionSubclass (name : string)   (* any other class under Exception *)
  | BaseExceptionOnly (name : string).  (* KeyboardInterrupt, SystemExit, ...:
                                           under BaseException, not Exception *)

Record exc : Type := Exc { exc_cls : exc_class; exc_msg : string }.

(** [isinstance(e, ImportError)], the clause of line 30. *)
Definition isinstance_ImportError (e : exc) : bool :=
  match exc_cls e with
  | ImportError | ModuleNotFoundError => true
  | _ => false
  end.

(** [isinstance(e, Exception)], the clause of line 112. *)
Definition isinstance_Exception (e : exc) : bool :=
  match exc_cls e with
  | BaseExceptionOnly _ => false
  | _ => true
  end.

(** [str(e)], as the f-string of line 113 renders it. *)
Definition str_exc (e : exc) : string := exc_msg e.

(** How a Python call ends: with a value or with an exception in flight. *)
Inductive outcome (A : Type) : Type :=
  | Return (a : A)
  | Raise (e : exc).
Arguments Return {A} a.
Arguments Raise {A} e.

(* ===================================================================== *)
(** ** The process: set objects, the two module globals, the journal *)
(* ===================================================================== *)

(** Python [set] objects live in a store and are held by reference. *)
Definition loc : Type := positive.

(** An [Accelerator] instance: opaque, known by its identity only. *)
Definition handle : Type := nat.

(** The calls that leave this module. *)
Inductive ext_call : Type :=
  | ImportCumlAccel                       (* import cuml.accel *)
  | ImportAccelerator                     (* from cuml.accel.accelerator import Accelerator *)
  | ImportExclude                         (* from cuml.accel.core import _exclude_from_acceleration *)
  | NewAccelerator                        (* Accelerator(exclude=...) *)
  | Register (module_name wrapper : string)  (* accelerator.register(module_name, wrapper_module) *)
  | Install.                              (* accelerator.install() *)

(** What a run writes down: the records passed to [logger.log] and the
    external calls it made, each with the exception it raised, if any. *)
Inductive event : Type :=
  | Log (level : nat) (msg : string)
  | Called (c : ext_call) (raised : option exc).

Record process : Type := Process {
  heap : gmap loc (gset string);         (* the set objects *)
  _activated_modules : loc;              (* line 14: a reference to a set *)
  _accelerator : gmap string handle;     (* line 15: module_name -> Accelerator *)
  journal : list event                   (* oldest first *)
}.

(** The members of the set that [_activated_modules] refers to. *)
Definition activated (p : process) : gset string :=
  default ∅ (heap p !! _activated_modules p).

(** Process start, lines 14 and 15: an empty set and an empty dict. *)
Definition initial : process :=
  {| heap := {[ 1%positive := ∅ ]};
     _activated_modules := 1%positive;
     _accelerator := ∅;
     journal := [] |}.

(** The behaviour of the external library during one call into this
    module: for each external call, whether it raises and what it yields. *)
Record external : Type := External {
  import_cuml_accel : outcome unit;
  import_Accelerator : outcome unit;
  import_exclude : outcome unit;
  Accelerator_new : outcome handle;
  Accelerator_register : string -> string -> outcome unit;
  Accelerator_install : outcome unit
}.

(* ===================================================================== *)
(** ** A monad for Python statements *)
(* ===================================================================== *)

(** A statement runs on the process and ends with a value or an exception;
    what it changed before an exception was raised stays changed. *)
Definition Py (A : Type) : Type := process -> outcome A * process.

#[global] Instance Py_ret : MRet Py := fun A a p => (Return a, p).

#[global] Instance Py_bind : MBind Py := fun A B f m p =>
  match m p with
  | (Return a, p') => f a p'
  | (Raise e, p') => (Raise e, p')
  end.

(** [try: body  except <catches> as e: handler e] *)
Definition try_except {A} (body : Py A) (catches : exc -> bool)
    (handler : exc -> Py A) : Py A := fun p =>
  match body p with
  | (Return a, p') => (Return a, p')
  | (Raise e, p') => if catches e then handler e p' else (Raise e, p')
  end.

(** [p] with [evs] written at the end of its journal, nothing else changed. *)
Definition journalled (evs : list event) (p : process) : process :=
  {| heap := heap p; _activated_modules := _activated_modules p;
     _accelerator := _accelerator p; journal := journal p ++ evs |}.

Definition emit (ev : event) : Py unit := fun p =>
  (Return tt, journalled [ev] p).

(** [logger.log(level, msg)] *)
Definition logger_log (level : nat) (msg : string) : Py unit :=
  emit (Log level msg).

Definition raised {A} (o : outcome A) : option exc :=
  match o with Return _ => None | Raise e => Some e end.

(** An external call: journalled, then it ends the way the library says. *)
Definition call_external {A} (c : ext_call) (o : outcome A) : Py A := fun p =>
  match emit (Called c (raised o)) p with
  | (_, p') => (o, p')
  end.

(** [x in _activated_modules] *)
Definition set_contains (x : string) : Py bool := fun p =>
  (Return (bool_decide (x ∈ activated p)), p).

(** [_activated_modules.add(x)]: the set object is updated in place. *)
Definition set_add (x : string) : Py unit := fun p =>
  (Return tt,
   {| heap := <[ _activated_modules p := {[ x ]} ∪ activated p ]> (heap p);
      _activated_modules := _activated_modules p;
      _accelerator := _accelerator p; journal := journal p |}).

(** [_accelerator[k] = h] *)
Definition dict_setitem (k : string) (h : handle) : Py unit := fun p =>
  (Return tt,
   {| heap := heap p; _activated_modules := _activated_modules p;
      _accelerator := <[ k := h ]> (_accelerator p); journal := journal p |}).

(** [p] after lines 106 and 107 for [module_name] and the instance [h]. *)
Definition recorded (module_name : string) (h : handle) (p : process) : process :=
  {| heap := <[ _activated_modules p := {[ module_name ]} ∪ activated p ]> (heap p);
     _activated_modules := _activated_modules p;
     _accelerator := <[ module_name := h ]> (_accelerator p);
     journal := journal p |}.

(** [_activated_modules.copy()]: a new set object with the same members. *)
Definition set_copy : Py loc := fun p =>
  let l := fresh (dom (heap p)) in
  (Return l,
   {| heap := <[ l := activated p ]> (heap p);
      _activated_modules := _activated_modules p;
      _accelerator := _accelerator p; journal := journal p |}).

(* ===================================================================== *)
(** ** cuml_accel_utils.py *)
(* ===================================================================== *)

(** Lines 18-31. *)
Definition is_cuml_accel_available (ext : external) : Py bool :=
  try_except
    (call_external ImportCumlAccel (import_cuml_accel ext);; mret true)
    isinstance_ImportError
    (fun _ => mret false).

(** Lines 34-48. *)
Definition is_module_accelerated (module_name : string) : Py bool :=
  set_contains module_name.

(** Lines 51-114. *)
Definition activate_cuml_accel_for_module (ext : external)
    (module_name : string) : Py bool :=
  active ← set_contains module_name;
  if active : bool then
    logger_log 15 ("cuML acceleration already active for " +:+ module_name);;
    mret true
  else
    available ← is_cuml_accel_available ext;
    if negb available then
      logger_log 15 ("cuml.accel not available, cannot accelerate " +:+ module_name);;
      mret false
    else
      try_except
        (call_external ImportAccelerator (import_Accelerator ext);;
         call_external ImportExclude (import_exclude ext);;
         accelerator ← call_external NewAccelerator (Accelerator_new ext);
         logger_log 15 ("Created cuML Accelerator instance for " +:+ module_name);;
         let wrapper := wrapper_module module_name in
         call_external (Register module_name wrapper)
           (Accelerator_register ext module_name wrapper);;
         call_external Install (Accelerator_install ext);;
         dict_setitem module_name accelerator;;
         set_add module_name;;
         logger_log 15 ("Successfully activated cuML acceleration for " +:+ module_name);;
         mret true)
        isinstance_Exception
        (fun e =>
           logger_log 15 ("Failed to activate cuML acceleration for " +:+ module_name
                          +:+ ": " +:+ str_exc e);;
           mret false).

(** Lines 117-126. *)
Definition get_activated_modules : Py loc := set_copy.

(* ===================================================================== *)
(** ** Callers: sequences of calls into the module *)
(* ===================================================================== *)

(** What a caller can do to a set object it holds. *)
Inductive mutation : Type :=
  | SetAdd (x : string)       (* s.add(x) *)
  | SetDiscard (x : string)   (* s.discard(x) *)
  | SetClear.                 (* s.clear() *)

Definition apply_mutation (mu : mutation) (s : gset string) : gset string :=
  match mu with
  | SetAdd x => {[ x ]} ∪ s
  | SetDiscard x => s ∖ {[ x ]}
  | SetClear => ∅
  end.

(** The set object at [l] is mutated in place; every reference to it sees
    the change. *)
Definition mutate_set (l : loc) (mu : mutation) : Py unit := fun p =>
  (Return tt,
   {| heap := alter (apply_mutation mu) l (heap p);
      _activated_modules := _activated_modules p;
      _accelerator := _accelerator p; journal := journal p |}).

(** The caller mutates the set object at [l] several times in a row. *)
Definition mutate_all (l : loc) (mus : list mutation) (p : process) : process :=
  foldl (fun q mu => snd (mutate_set l mu q)) p mus.

(** One step of a caller: a call of one of the four functions, each time
    with the external library behaving as [ext] says, or a mutation of the
    [k]-th set that [get_activated_modules] handed out. *)
Inductive op : Type :=
  | IsAvailable (ext : external)
  | IsAccelerated (module_name : string)
  | Activate (ext : external) (module_name : string)
  | GetActivated
  | Mutate (k : nat) (mu : mutation).

Inductive response : Type :=
  | RBool (o : outcome bool)
  | RSet (o : outcome loc)
  | RNone.

Record call_record : Type := CallRecord {
  cr_op : op;
  cr_response : response;
  cr_events : list event       (* what this call added to the journal *)
}.

Record session : Type := Session {
  proc : process;
  held : list loc;             (* the sets returned to the caller so far *)
  history : list call_record   (* oldest first *)
}.

Definition start : session :=
  {| proc := initial; held := []; history := [] |}.

Definition events_since (p p' : process) : list event :=
  drop (length (journal p)) (journal p').

Definition exec (o : op) (s : session) : session :=
  let p := proc s in
  match o with
  | IsAvailable ext =>
      let '(r, p') := is_cuml_accel_available ext p in
      {| proc := p'; held := held s;
         history := history s ++ [CallRecord o (RBool r) (events_since p p')] |}
  | IsAccelerated m =>
      let '(r, p') := is_module_accelerated m p in
      {| proc := p'; held := held s;
         history := history s ++ [CallRecord o (RBool r) (events_since p p')] |}
  | Activate ext m =>
      let '(r, p') := activate_cuml_accel_for_module ext m p in
      {| proc := p'; held := held s;
         history := history s ++ [CallRecord o (RBool r) (events_since p p')] |}
  | GetActivated =>
      let '(r, p') := get_activated_modules p in
      {| proc := p';
         held := held s ++ match r with Return l => [l] | Raise _ => [] end;
         history := history s ++ [CallRecord o (RSet r) (events_since p p')] |}
  | Mutate k mu =>
      match held s !! k with
      | Some l =>
          let '(_, p') := mutate_set l mu p in
          {| proc := p'; held := held s;
             history := history s ++ [CallRecord o RNone (events_since p p')] |}
      | None => s
      end
  end.

(** [run ops s]: the calls of [ops], first to last, from [s]. *)
Definition run (ops : list op) (s : session) : session :=
  foldl (fun s o => exec o s) s ops.

(** The external call [c] was made and did not raise. *)
Definition completed (c : event -> bool) (evs : list event) : bool :=
  existsb c evs.

Definition is_register_ok (m : string) (ev : event) : bool :=
  match ev with
  | Called (Register m' w) None =>
      bool_decide (m' = m) && bool_decide (w = wrapper_module m)
  | _ => false
  end.

Definition is_install_ok (ev : event) : bool :=
  match ev with
  | Called Install None => true
  | _ => false
  end.

(** The record of a call [activate_cuml_accel_for_module(m)] that returned
    [True] and in which [install] was called and returned. *)
Definition activation_installed (m : string) (c : call_record) : bool :=
  match cr_op c, cr_response c with
  | Activate _ m', RBool (Return true) =>
      bool_decide (m' = m) && completed is_install_ok (cr_events c)
  | _, _ => false
  end.

(** In the call recorded as [c], [register] was called for [m] with the
    wrapper name derived from it, and returned. *)
Definition registration_completed (m : string) (c : call_record) : bool :=
  completed (is_register_ok m) (cr_events c).

(** The external calls and log records of lines 89-103, up to and including
    the first call that raises, and how that part of the [try] block ends:
    with the exception, or with the instance that was registered and
    installed. *)
Definition try_block (ext : external) (m : string)
    : list event * outcome handle :=
  let created := Log 15 ("Created cuML Accelerator instance for " +:+ m) in
  let w := wrapper_module m in
  match import_Accelerator ext with
  | Raise e => ([Called ImportAccelerator (Some e)], Raise e)
  | Return _ =>
  match import_exclude ext with
  | Raise e =>
      ([Called ImportAccelerator None; Called ImportExclude (Some e)], Raise e)
  | Return _ =>
  match Accelerator_new ext with
  | Raise e =>
      ([Called ImportAccelerator None; Called ImportExclude None;
        Called NewAccelerator (Some e)], Raise e)
  | Return h =>
  match Accelerator_register ext m w with
  | Raise e =>
      ([Called ImportAccelerator None; Called ImportExclude None;
        Called NewAccelerator None; created;
        Called (Register m w) (Some e)], Raise e)
  | Return _ =>
  match Accelerator_install ext with
  | Raise e =>
      ([Called ImportAccelerator None; Called ImportExclude None;
        Called NewAccelerator None; created;
        Called (Register m w) None; Called Install (Some e)], Raise e)
  | Return _ =>
      ([Called ImportAccelerator None; Called ImportExclude None;
        Called NewAccelerator None; created;
        Called (Register m w) None; Called Install None], Return h)
  end end end end end.

(** The external calls made inside the [try] block of lines 88-114: the two
    component imports, the construction of the instance, [register] and
    [install].  The import of line 28 is made before the block is entered. *)
Definition inside_try (c : ext_call) : bool :=
  match c with
  | ImportCumlAccel => false
  | ImportAccelerator | ImportExclude | NewAccelerator
  | Register _ _ | Install => true
  end.

(** The caller's references do not alias the module's own set, which is an
    object of the store. *)
Definition store_ok (s : session) : Prop :=
  is_Some (heap (proc s) !! _activated_modules (proc s))
  /\ forall l, l ∈ held s -> l <> _activated_modules (proc s).

(* ===================================================================== *)
(** ** demo-cuml-accel.py *)
(* ===================================================================== *)

(** The keyword arguments of [TabularPredictor(label, path).fit(...)]; the
    training table is the same in the three cases and is left out. *)
Record fit_request : Type := FitRequest {
  fit_label : string;
  fit_path : string;
  fit_time_limit : nat;
  fit_hyperparameters : list string;   (* the keys of the dict, each with {} *)
  fit_num_bag_folds : nat;
  fit_num_stack_levels : nat;
  fit_num_gpus : Z;                    (* ag_args_fit={'num_gpus': num_gpus} *)
  fit_verbosity : nat
}.

Inductive demo_call : Type :=
  | Fit (r : fit_request)
  | Leaderboard
  | Print (s : string).

(** The predictor is external: [fit] and [leaderboard] end as it says. *)
Record predictor : Type := Predictor {
  fit_outcome : fit_request -> outcome unit;
  leaderboard_outcome : outcome unit
}.

Definition demo_fit (label path key : string) (num_gpus : Z) : fit_request :=
  {| fit_label := label; fit_path := path; fit_time_limit := 15;
     fit_hyperparameters := [key]; fit_num_bag_folds := 0;
     fit_num_stack_levels := 0; fit_num_gpus := num_gpus;
     fit_verbosity := 2 |}.

(** Lines 12-54.  The data set of lines 14-16 is built from constants and
    reaches the predictor unchanged; the result is how the function ends
    together with the calls it made, in order. *)
Definition _run_autogluon_demo (tp : predictor) (model : string)
    (num_gpus : Z) : outcome unit * list demo_call :=
  let fitted (r : fit_request) :=
    match fit_outcome tp r with
    | Raise e => (Raise e, [Fit r])
    | Return _ =>
        match leaderboard_outcome tp with
        | Raise e => (Raise e, [Fit r; Leaderboard])
        | Return _ =>
            (Return tt, [Fit r; Leaderboard; Print (String "010" "Demo complete!")])
        end
    end in
  if String.eqb model "rf" then
    fitted (demo_fit "target" "/tmp/demo_rf" "RF" num_gpus)
  else if String.eqb model "knn" then
    fitted (demo_fit "target" "/tmp/demo_knn" "KNN" num_gpus)
  else if String.eqb model "lr" then
    fitted (demo_fit "target" "/tmp/demo_lr" "LR" num_gpus)
  else
    (Raise (Exc ValueError ("Invalid model: " +:+ model)), []).

(* ===================================================================== *)
(** ** demo-cuml-accel.py, the command, and the package's import *)
(* ===================================================================== *)

(** Line 58: the values that [click.Choice] lets through to [main]. *)
Definition model_choices : list string := ["rf"; "knn"; "lr"].

(** Line 54: the text handed to [print]. *)
Definition demo_complete : string := String "010" "Demo complete!".

(** The profiling side of [cuml.accel], as [main] meets it: the import of
    line 65, the construction of the context manager, and its [__enter__]
    and [__exit__].  [__exit__] is told the exception in flight, if any,
    and answers whether it swallows it. *)
Record profiler : Type := Profiler {
  user_import_cuml_accel : outcome unit;
  profile_new : outcome unit;
  profile_enter : outcome unit;
  profile_exit : option exc -> outcome bool
}.

Inductive main_call : Type :=
  | UserImport (raised : option exc)                 (* import cuml.accel *)
  | ProfileNew (raised : option exc)                 (* cuml.accel.profile() *)
  | ProfileEnter (raised : option exc)               (* __enter__ *)
  | ProfileExit (in_flight raised : option exc)      (* __exit__ *)
  | Demo (c : demo_call).                            (* a call of the demo *)

(** [with mgr: body], for a body that has run already: [__exit__] is
    called in every case; an exception of the body goes on unless
    [__exit__] answers true, and an exception of [__exit__] itself
    replaces it. *)
Definition with_exit (pf : profiler) (body : outcome unit)
    : outcome unit * list main_call :=
  match body with
  | Return _ =>
      match profile_exit pf None with
      | Return _ => (Return tt, [ProfileExit None None])
      | Raise e' => (Raise e', [ProfileExit None (Some e')])
      end
  | Raise e =>
      match profile_exit pf (Some e) with
      | Return true => (Return tt, [ProfileExit (Some e) None])
      | Return false => (Raise e, [ProfileExit (Some e) None])
      | Raise e' => (Raise e', [ProfileExit (Some e) (Some e')])
      end
  end.

(** Lines 61-69, for arguments that the command line has parsed. *)
Definition main (pf : profiler) (tp : predictor) (model : string)
    (num_gpus : Z) (profile : bool) : outcome unit * list main_call :=
  if profile then
    match user_import_cuml_accel pf with
    | Raise e => (Raise e, [UserImport (Some e)])
    | Return _ =>
    match profile_new pf with
    | Raise e => (Raise e, [UserImport None; ProfileNew (Some e)])
    | Return _ =>
    match profile_enter pf with
    | Raise e =>
        (Raise e, [UserImport None; ProfileNew None; ProfileEnter (Some e)])
    | Return _ =>
        let '(r, calls) := _run_autogluon_demo tp model num_gpus in
        let '(r', closing) := with_exit pf r in
        (r', [UserImport None; ProfileNew None; ProfileEnter None]
             ++ (Demo <$> calls) ++ closing)
    end end end
  else
    let '(r, calls) := _run_autogluon_demo tp model num_gpus in
    (r, Demo <$> calls).

(** [autogluon/common/__init__.py], line 14: importing the package calls
    the availability check and drops its result. *)
Definition package_precheck (ext : external) : Py unit :=
  is_cuml_accel_available ext;; mret tt.

(* ===================================================================== *)
(** ** Notions used in the statements below *)
(* ===================================================================== *)

(** Every external call of an activation of [m] returns, and the instance
    made is [h]. *)
Definition works_for (ext : external) (m : string) (h : handle) : Prop :=
  import_cuml_accel ext = Return tt
  /\ import_Accelerator ext = Return tt
  /\ import_exclude ext = Return tt
  /\ Accelerator_new ext = Return h
  /\ Accelerator_register ext m (wrapper_module m) = Return tt
  /\ Accelerator_install ext = Return tt.

(** What a successful activation of [m] writes to the journal. *)
Definition success_events (m : string) : list event :=
  [Called ImportCumlAccel None;
   Called ImportAccelerator None;
   Called ImportExclude None;
   Called NewAccelerator None;
   Log 15 ("Created cuML Accelerator instance for " +:+ m);
   Called (Register m (wrapper_module m)) None;
   Called Install None;
   Log 15 ("Successfully activated cuML acceleration for " +:+ m)].

(** How many calls of the history installed [m]. *)
Definition installations (m : string) (hist : list call_record) : nat :=
  length (List.filter (activation_installed m) hist).

(** A journal entry as the module writes them: a log record is at level
    15, and [register] gets the wrapper name derived from the module name
    it is called for. *)
Definition event_conforms (ev : event) : bool :=
  match ev with
  | Log level _ => Nat.eqb level 15
  | Called (Register m w) _ => bool_decide (w = wrapper_module m)
  | Called _ _ => true
  end.

(** *** Behaviours of the external library used in the examples *)

(** The package is installed and works; the instance made has identity [h]. *)
Definition library_works (h : handle) : external :=
  {| import_cuml_accel := Return tt;
     import_Accelerator := Return tt;
     import_exclude := Return tt;
     Accelerator_new := Return h;
     Accelerator_register := fun _ _ => Return tt;
     Accelerator_install := Return tt |}.

(** The package is not installed: every import of it raises
    [ModuleNotFoundError]. *)
Definition no_module : exc :=
  Exc ModuleNotFoundError "No module named 'cuml'".

Definition library_missing : external :=
  {| import_cuml_accel := Raise no_module;
     import_Accelerator := Raise no_module;
     import_exclude := Raise no_module;
     Accelerator_new := Raise no_module;
     Accelerator_register := fun _ _ => Raise no_module;
     Accelerator_install := Raise no_module |}.

(** The package is installed but fails while it is loaded, with an
    exception that is not an [ImportError]. *)
Definition no_driver : exc :=
  Exc (ExceptionSubclass "RuntimeError") "CUDA driver not found".

Definition library_fails_on_import : external :=
  {| import_cuml_accel := Raise no_driver;
     import_Accelerator := Raise no_driver;
     import_exclude := Raise no_driver;
     Accelerator_new := Raise no_driver;
     Accelerator_register := fun _ _ => Raise no_driver;
     Accelerator_install := Raise no_driver |}.

(** Everything works up to [install], which raises. *)
Definition library_fails_on_install : external :=
  {| import_cuml_accel := Return tt;
     import_Accelerator := Return tt;
     import_exclude := Return tt;
     Accelerator_new := Return 0;
     Accelerator_register := fun _ _ => Return tt;
     Accelerator_install := Raise no_driver |}.

(** A predictor whose calls return. *)
Definition predictor_works : predictor :=
  {| fit_outcome := fun _ => Return tt; leaderboard_outcome := Return tt |}.

(** A profiler whose calls return and which swallows nothing. *)
Definition profiler_works : profiler :=
  {| user_import_cuml_accel := Return tt;
     profile_new := Return tt;
     profile_enter := Return tt;
     profile_exit := fun _ => Return false |}.

(** No profiler: the package is not installed. *)
Definition profiler_missing : profiler :=
  {| user_import_cuml_accel := Raise no_module;
     profile_new := Raise no_module;
     profile_enter := Raise no_module;
     profile_exit := fun _ => Raise no_module |}.

(** A predictor whose [fit] fails. *)
Definition out_of_memory : exc :=
  Exc (ExceptionSubclass "MemoryError") "out of memory".

Definition predictor_fit_fails : predictor :=
  {| fit_outcome := fun _ => Raise out_of_memory;
     leaderboard_outcome := Return tt |}.

(** The user interrupts [install]. *)
Definition interrupted : exc :=
  Exc (BaseExceptionOnly "KeyboardInterrupt") "".

Definition library_interrupted_on_install : external :=
  {| import_cuml_accel := Return tt;
     import_Accelerator := Return tt;
     import_exclude := Return tt;
     Accelerator_new := Return 0;
     Accelerator_register := fun _ _ => Return tt;
     Accelerator_install := Raise interrupted |}.

(* ===================================================================== *)
(** * Properties *)
(* ===================================================================== *)

(** ** [str.replace] and the wrapper module name *)

Section ReplaceFacts.
Variables old new : string.

Lemma starts_with_append (a rest : string) :
  PyStr.starts_with a (a +:+ rest) = true.
Proof.
  unfold PyStr.starts_with.
  induction a as [|c a IH]; simpl.
  - by destruct rest.
  - destruct (Ascii.ascii_dec c c); [exact IH | congruence].
Qed.

(** The characters of a replaced occurrence are passed over. *)
Lemma replace_from_skip (a rest : string) :
  PyStr.replace_from old new (String.length a) (a +:+ rest)
  = PyStr.replace_from old new 0 rest.
Proof.
  induction a as [|c a IH]; simpl.
  - by destruct rest.
  - exact IH.
Qed.

(** Where [old] does not occur, nothing is replaced. *)
Lemma replace_from_absent (s : string) :
  PyStr.occurs old s = false -> PyStr.replace_from old new 0 s = s.
Proof.
  induction s as [|c s IH]; [done|].
  cbn [PyStr.occurs PyStr.replace_from].
  intros [Hhd Htl]%orb_false_elim.
  rewrite Hhd. f_equal. by apply IH.
Qed.

(** A leading occurrence is replaced and the scan goes on behind it. *)
Lemma replace_leading (rest : string) :
  old <> EmptyString ->
  PyStr.replace (old +:+ rest) old new = new +:+ PyStr.replace rest old new.
Proof.
  intros Hne. unfold PyStr.replace.
  destruct old as [|c o] eqn:Hold; [done|].
  rewrite <- Hold.
  replace (old +:+ rest) with (String c (o +:+ rest)) by (by rewrite Hold).
  cbn [PyStr.replace_from].
  replace (String c (o +:+ rest)) with (old +:+ rest) by (by rewrite Hold).
  rewrite starts_with_append.
  replace (Nat.pred (String.length old)) with (String.length o)
    by (by rewrite Hold).
  by rewrite replace_from_skip.
Qed.
End ReplaceFacts.

(** For a name whose only occurrence of the token is the leading one, the
    source's substitution and the rule of the specification give the same
    wrapper name: the token is exchanged and the rest is kept. *)
Lemma wrapper_module_leading_only (rest : string) :
  PyStr.occurs "sklearn" rest = false ->
  wrapper_module ("sklearn" +:+ rest) = "cuml.accel._wrappers.sklearn" +:+ rest.
Proof.
  intros Habs. unfold wrapper_module.
  rewrite replace_leading by done.
  unfold PyStr.replace. by rewrite replace_from_absent.
Qed.

Lemma substring_all (s : string) : String.substring 0 (String.length s) s = s.
Proof. induction s as [|c s IH]; simpl; [done | by rewrite IH]. Qed.

Lemma spec_wrapper_module_leading (rest : string) :
  spec_wrapper_module ("sklearn" +:+ rest) = "cuml.accel._wrappers.sklearn" +:+ rest.
Proof.
  unfold spec_wrapper_module.
  rewrite starts_with_append.
  simpl. by rewrite Nat.sub_0_r, substring_all.
Qed.

Example wrapper_module_ensemble :
  wrapper_module "sklearn.ensemble" = "cuml.accel._wrappers.sklearn.ensemble".
Proof. reflexivity. Qed.

Example wrapper_module_neighbors :
  wrapper_module "sklearn.neighbors" = "cuml.accel._wrappers.sklearn.neighbors".
Proof. reflexivity. Qed.

Example replace_does_not_overlap : PyStr.replace "aaa" "aa" "b" = "ba".
Proof. reflexivity. Qed.

Example replace_empty_pattern : PyStr.replace "abc" "" "-" = "-a-b-c-".
Proof. reflexivity. Qed.

(** C1.  The derived wrapper name is meant to be the input with only the
    leading token [sklearn] exchanged for [cuml.accel._wrappers.sklearn].
    Line 99 calls [str.replace] without a count, which exchanges every
    occurrence: on the name [sklearn.utils.sklearn_helpers] the token is
    exchanged twice, and the result is not the name that the rule of the
    specification gives. *)
Theorem wrapper_module_replaces_every_occurrence :
  wrapper_module "sklearn.utils.sklearn_helpers"
  = "cuml.accel._wrappers.sklearn.utils.cuml.accel._wrappers.sklearn_helpers"
  /\ spec_wrapper_module "sklearn.utils.sklearn_helpers"
     = "cuml.accel._wrappers.sklearn.utils.sklearn_helpers"
  /\ wrapper_module "sklearn.utils.sklearn_helpers"
     <> spec_wrapper_module "sklearn.utils.sklearn_helpers".
Proof. repeat split. by vm_compute. Qed.

(** ** The journal and the two globals *)

Lemma journalled_journalled (a b : list event) (p : process) :
  journalled b (journalled a p) = journalled (a ++ b) p.
Proof. unfold journalled; simpl. by rewrite app_assoc. Qed.

Lemma events_since_journalled (evs : list event) (p : process) :
  events_since p (journalled evs p) = evs.
Proof. unfold events_since; simpl. by rewrite drop_app_length. Qed.

Lemma events_since_recorded (evs : list event) (m : string) (h : handle)
    (p : process) :
  events_since p (journalled evs (recorded m h p)) = evs.
Proof. unfold events_since; simpl. by rewrite drop_app_length. Qed.

Lemma activated_journalled (evs : list event) (p : process) :
  activated (journalled evs p) = activated p.
Proof. reflexivity. Qed.

Lemma activated_recorded (m : string) (h : handle) (p : process) :
  activated (recorded m h p) = {[ m ]} ∪ activated p.
Proof. unfold activated at 1; simpl. by rewrite lookup_insert_eq. Qed.

Ltac journal_norm := rewrite ?journalled_journalled; cbn [app].

(** Unfolds a run of the module's statements down to the outcomes of the
    external calls. *)
Ltac py_unfold :=
  unfold activate_cuml_accel_for_module, is_cuml_accel_available,
    is_module_accelerated, get_activated_modules, try_except, call_external,
    logger_log, emit, set_contains, set_add, dict_setitem, set_copy,
    mutate_set, mbind, mret, Py_bind, Py_ret;
  cbn [fst snd raised].

(** ** The availability check *)

Lemma is_cuml_accel_available_cases (ext : external) (p : process) :
  is_cuml_accel_available ext p =
  match import_cuml_accel ext with
  | Return _ => (Return true, journalled [Called ImportCumlAccel None] p)
  | Raise e =>
      (if isinstance_ImportError e then Return false else Raise e,
       journalled [Called ImportCumlAccel (Some e)] p)
  end.
Proof.
  py_unfold. destruct (import_cuml_accel ext) as [[]|e]; cbn; [done|].
  by destruct (isinstance_ImportError e).
Qed.

Lemma is_cuml_accel_available_journalled (ext : external) (p : process) :
  is_cuml_accel_available ext p
  = (fst (is_cuml_accel_available ext p),
     journalled [Called ImportCumlAccel (raised (import_cuml_accel ext))] p).
Proof.
  rewrite is_cuml_accel_available_cases.
  by destruct (import_cuml_accel ext) as [[]|e].
Qed.

(** ** The activation routine, path by path *)

Section Activation.
Variables (ext : external) (m : string) (p : process).

(** Lines 79-81. *)
Lemma activate_already_active :
  m ∈ activated p ->
  activate_cuml_accel_for_module ext m p
  = (Return true, journalled [Log 15 ("cuML acceleration already active for " +:+ m)] p).
Proof.
  intros Hin. py_unfold. by rewrite bool_decide_true.
Qed.

(** Lines 84-86, and an import failure that line 30 does not catch. *)
Lemma activate_import_failed (e : exc) :
  m ∉ activated p ->
  import_cuml_accel ext = Raise e ->
  activate_cuml_accel_for_module ext m p
  = if isinstance_ImportError e
    then (Return false,
          journalled [Called ImportCumlAccel (Some e);
                      Log 15 ("cuml.accel not available, cannot accelerate " +:+ m)] p)
    else (Raise e, journalled [Called ImportCumlAccel (Some e)] p).
Proof.
  intros Hin He. py_unfold. rewrite bool_decide_false by done.
  rewrite He; cbn. destruct (isinstance_ImportError e); cbn; [|done].
  by rewrite journalled_journalled.
Qed.

(** Lines 88-114, once the package was found available. *)
Lemma activate_try :
  m ∉ activated p ->
  import_cuml_accel ext = Return tt ->
  activate_cuml_accel_for_module ext m p
  = match try_block ext m with
    | (evs, Return h) =>
        (Return true,
         journalled
           (Called ImportCumlAccel None :: evs ++
            [Log 15 ("Successfully activated cuML acceleration for " +:+ m)])
           (recorded m h p))
    | (evs, Raise e) =>
        if isinstance_Exception e
        then (Return false,
              journalled
                (Called ImportCumlAccel None :: evs ++
                 [Log 15 ("Failed to activate cuML acceleration for " +:+ m
                          +:+ ": " +:+ str_exc e)]) p)
        else (Raise e, journalled (Called ImportCumlAccel None :: evs) p)
    end.
Proof.
  intros Hin Hav. py_unfold. rewrite bool_decide_false by done.
  rewrite Hav; cbn [raised negb]. unfold try_block.
  remember (wrapper_module m) as w eqn:Hw.
  destruct (import_Accelerator ext) as [[]|e]; cbn [raised];
    [|destruct (isinstance_Exception e); by journal_norm].
  destruct (import_exclude ext) as [[]|e]; cbn [raised];
    [|destruct (isinstance_Exception e); by journal_norm].
  destruct (Accelerator_new ext) as [h|e]; cbn [raised];
    [|destruct (isinstance_Exception e); by journal_norm].
  destruct (Accelerator_register ext m w) as [[]|e]; cbn [raised];
    [|destruct (isinstance_Exception e); by journal_norm].
  destruct (Accelerator_install ext) as [[]|e]; cbn [raised];
    [|destruct (isinstance_Exception e); by journal_norm].
  f_equal. unfold journalled, recorded, activated; cbn.
  f_equal. by rewrite <- !app_assoc.
Qed.
End Activation.

(** *** What the [try] block leaves in the journal *)

(** Goes through the members of an explicit list of events. *)
Ltac in_events H :=
  repeat (apply elem_of_cons in H as [H|H]; [try by simplify_eq|]);
  try by apply elem_of_nil in H.

Lemma try_block_raised (ext : external) (m : string) (evs : list event)
    (o : outcome handle) (c : ext_call) (e : exc) :
  try_block ext m = (evs, o) ->
  Called c (Some e) ∈ evs ->
  o = Raise e.
Proof.
  unfold try_block.
  destruct (import_Accelerator ext) as [[]|e1].
  2: { intros [= <- <-] Hin. by in_events Hin. }
  destruct (import_exclude ext) as [[]|e2].
  2: { intros [= <- <-] Hin. by in_events Hin. }
  destruct (Accelerator_new ext) as [h|e3].
  2: { intros [= <- <-] Hin. by in_events Hin. }
  destruct (Accelerator_register ext m (wrapper_module m)) as [[]|e4].
  2: { intros [= <- <-] Hin. by in_events Hin. }
  destruct (Accelerator_install ext) as [[]|e5].
  2: { intros [= <- <-] Hin. by in_events Hin. }
  intros [= <- <-] Hin. by in_events Hin.
Qed.

Lemma try_block_installed (ext : external) (m : string) (evs : list event)
    (h : handle) :
  try_block ext m = (evs, Return h) ->
  completed (is_register_ok m) evs = true
  /\ completed is_install_ok evs = true
  /\ Accelerator_new ext = Return h.
Proof.
  unfold try_block.
  destruct (import_Accelerator ext) as [[]|e1]; [|done].
  destruct (import_exclude ext) as [[]|e2]; [|done].
  destruct (Accelerator_new ext) as [h'|e3]; [|done].
  destruct (Accelerator_register ext m (wrapper_module m)) as [[]|e4]; [|done].
  destruct (Accelerator_install ext) as [[]|e5]; [|done].
  intros [= <- <-]. unfold completed; cbn.
  by rewrite !bool_decide_true.
Qed.

Lemma completed_framed (f : event -> bool) (e : event) (a b : list event) :
  completed f a = true -> completed f (e :: a ++ b) = true.
Proof.
  intros Ha. unfold completed in *. cbn [existsb].
  by rewrite existsb_app, Ha, orb_true_r.
Qed.

(** *** Every call of the routine: either the two globals are as before, or
    the module was recorded after [register] and [install] had returned *)

Lemma activate_cases (ext : external) (m : string) (p : process) :
  exists r evs,
    (activate_cuml_accel_for_module ext m p = (r, journalled evs p)
     /\ (r = Return true ->
         (m ∈ activated p) /\ completed is_install_ok evs = false))
    \/ (exists h,
         activate_cuml_accel_for_module ext m p
         = (r, journalled evs (recorded m h p))
         /\ r = Return true
         /\ (m ∉ activated p)
         /\ completed (is_register_ok m) evs = true
         /\ completed is_install_ok evs = true).
Proof.
  destruct (decide (m ∈ activated p)) as [Hin|Hin].
  { eexists _, _. left. split; [by apply activate_already_active|done]. }
  destruct (import_cuml_accel ext) as [[]|e] eqn:Himp.
  2: { rewrite (activate_import_failed ext m p e Hin Himp).
       destruct (isinstance_ImportError e); eexists _, _; left; by split. }
  rewrite (activate_try ext m p Hin Himp).
  destruct (try_block ext m) as [evs [h|e]] eqn:Htry.
  - eexists _, _. right. exists h. split; [done|].
    apply try_block_installed in Htry as (Hreg & Hins & _).
    split_and!; [done|done| |].
    + by apply completed_framed.
    + by apply completed_framed.
  - destruct (isinstance_Exception e); eexists _, _; left; by split.
Qed.

(** ** The claims about single calls *)

(** C2.  Whenever a call made inside the [try] block of the activation
    routine (a component import, the construction of the accelerator,
    [register] or [install]) raises an exception [e] of a class under
    [Exception], the routine returns [False], the last record it logs is the
    level-15 failure message carrying [e], and the set objects, the
    activated-module set and the accelerator table are as before the call:
    only the journal has grown. *)
Theorem activate_catches_library_exceptions (ext : external) (m : string)
    (p p' : process) (r : outcome bool) (c : ext_call) (e : exc) :
  activate_cuml_accel_for_module ext m p = (r, p') ->
  Called c (Some e) ∈ events_since p p' ->
  inside_try c = true ->
  isinstance_Exception e = true ->
  r = Return false
  /\ heap p' = heap p
  /\ _activated_modules p' = _activated_modules p
  /\ activated p' = activated p
  /\ _accelerator p' = _accelerator p
  /\ last (journal p')
     = Some (Log 15 ("Failed to activate cuML acceleration for " +:+ m
                     +:+ ": " +:+ str_exc e)).
Proof.
  intros Hrun Hev Hc He.
  destruct (decide (m ∈ activated p)) as [Hin|Hin].
  { rewrite activate_already_active in Hrun by done.
    injection Hrun as <- <-. rewrite events_since_journalled in Hev.
    by in_events Hev. }
  destruct (import_cuml_accel ext) as [[]|e0] eqn:Himp.
  2: { rewrite (activate_import_failed ext m p e0 Hin Himp) in Hrun.
       destruct (isinstance_ImportError e0); injection Hrun as <- <-;
         rewrite events_since_journalled in Hev; in_events Hev;
         by simplify_eq. }
  rewrite (activate_try ext m p Hin Himp) in Hrun.
  destruct (try_block ext m) as [evs o] eqn:Htry.
  assert (o = Raise e) as ->.
  { destruct o as [h|e1].
    - injection Hrun as <- <-. rewrite events_since_recorded in Hev.
      apply elem_of_cons in Hev as [Hev|Hev]; [by simplify_eq|].
      apply elem_of_app in Hev as [Hev|Hev]; [|by in_events Hev].
      by apply (try_block_raised _ _ _ _ _ _ Htry) in Hev.
    - destruct (isinstance_Exception e1); injection Hrun as <- <-;
        rewrite events_since_journalled in Hev.
      + apply elem_of_cons in Hev as [Hev|Hev]; [by simplify_eq|].
        apply elem_of_app in Hev as [Hev|Hev]; [|by in_events Hev].
        by apply (try_block_raised _ _ _ _ _ _ Htry) in Hev.
      + apply elem_of_cons in Hev as [Hev|Hev]; [by simplify_eq|].
        by apply (try_block_raised _ _ _ _ _ _ Htry) in Hev. }
  rewrite He in Hrun. injection Hrun as <- <-.
  split_and!; try done.
  cbn [journalled journal].
  by rewrite app_comm_cons, app_assoc, last_snoc.
Qed.

Lemma activate_catches_library_exceptions_witness :
  let r := activate_cuml_accel_for_module library_fails_on_install
             "sklearn.ensemble" initial in
  isinstance_Exception no_driver = true
  /\ fst r = Return false
  /\ activated (snd r) = activated initial
  /\ _accelerator (snd r) = _accelerator initial.
Proof.
  intros r. split; [reflexivity|].
  destruct (activate_catches_library_exceptions library_fails_on_install
              "sklearn.ensemble" initial (snd r) (fst r) Install no_driver)
    as (Hr & _ & _ & Hset & Htab & _).
  - symmetry. apply surjective_pairing.
  - vm_compute. repeat constructor.
  - reflexivity.
  - reflexivity.
  - by split_and!.
Defined.

(** C2, without the restriction to classes under [Exception], fails: it is
    not the case that every exception raised inside the [try] block is
    turned into [False].  When [install] is interrupted with
    [KeyboardInterrupt], which the clause of line 112 does not name, the
    call does not return: the exception reaches the caller. *)
Lemma activate_does_not_catch_every_exception :
  ~ (forall (ext : external) (m : string) (p p' : process)
            (r : outcome bool) (c : ext_call) (e : exc),
       activate_cuml_accel_for_module ext m p = (r, p') ->
       Called c (Some e) ∈ events_since p p' ->
       inside_try c = true ->
       r = Return false).
Proof.
  intros Hclaim.
  pose (run := activate_cuml_accel_for_module library_interrupted_on_install
                 "sklearn.ensemble" initial).
  assert (fst run = Return false) as Hr.
  { apply (Hclaim library_interrupted_on_install "sklearn.ensemble" initial
             (snd run) (fst run) Install interrupted).
    - symmetry. apply surjective_pairing.
    - vm_compute. repeat constructor.
    - reflexivity. }
  by vm_compute in Hr.
Qed.

(** C3.  If a call of the activation routine for a module name has returned
    [True], then the next call for the same name, whatever the external
    library would do, returns [True] from its first branch: it makes no
    external call at all (no import, no [register], no [install]), and it
    leaves the set objects and both globals as they were; the only trace of
    the call is the one log record of line 80. *)
Theorem activate_twice_is_idempotent (ext1 ext2 : external) (m : string)
    (p p1 : process) :
  activate_cuml_accel_for_module ext1 m p = (Return true, p1) ->
  activate_cuml_accel_for_module ext2 m p1
  = (Return true,
     journalled [Log 15 ("cuML acceleration already active for " +:+ m)] p1).
Proof.
  intros Hfirst. apply activate_already_active.
  destruct (activate_cases ext1 m p) as (r & evs & [[Hrun Hr]|(h & Hrun & Hr & _)]);
    rewrite Hfirst in Hrun; injection Hrun as <- ->.
  - rewrite activated_journalled. by apply Hr.
  - rewrite activated_journalled, activated_recorded. set_solver.
Qed.

Lemma activate_twice_is_idempotent_witness :
  let p1 := snd (activate_cuml_accel_for_module (library_works 7)
                   "sklearn.ensemble" initial) in
  let r2 := activate_cuml_accel_for_module library_fails_on_import
              "sklearn.ensemble" p1 in
  fst r2 = Return true
  /\ activated (snd r2) = activated p1
  /\ _accelerator (snd r2) = _accelerator p1
  /\ events_since p1 (snd r2)
     = [Log 15 "cuML acceleration already active for sklearn.ensemble"].
Proof.
  intros p1 r2. unfold r2.
  rewrite (activate_twice_is_idempotent (library_works 7)
             library_fails_on_import "sklearn.ensemble" initial p1).
  - by split_and!.
  - by vm_compute.
Defined.

(** X20.  For a module name that is not recorded active, when the import of
    the acceleration package raises [ImportError] (or a subclass of it, as
    for a package that is not installed), the activation routine returns
    [False] after the one import attempt, logs the level-15 message of line
    85, and leaves the set objects, the activated-module set and the
    accelerator table unchanged. *)
Theorem activate_unavailable_returns_false (ext : external) (m : string)
    (p : process) (e : exc) :
  m ∉ activated p ->
  import_cuml_accel ext = Raise e ->
  isinstance_ImportError e = true ->
  let '(r, p') := activate_cuml_accel_for_module ext m p in
  r = Return false
  /\ heap p' = heap p
  /\ _activated_modules p' = _activated_modules p
  /\ activated p' = activated p
  /\ _accelerator p' = _accelerator p
  /\ events_since p p'
     = [Called ImportCumlAccel (Some e);
        Log 15 ("cuml.accel not available, cannot accelerate " +:+ m)].
Proof.
  intros Hin Himp He.
  rewrite (activate_import_failed ext m p e Hin Himp), He.
  split_and!; try done. apply events_since_journalled.
Qed.

Lemma activate_unavailable_returns_false_witness :
  ("sklearn.ensemble" ∉ activated initial)
  /\ isinstance_ImportError no_module = true
  /\ fst (activate_cuml_accel_for_module library_missing "sklearn.ensemble"
            initial) = Return false
  /\ activated (snd (activate_cuml_accel_for_module library_missing
                       "sklearn.ensemble" initial)) = activated initial.
Proof.
  assert ("sklearn.ensemble" ∉ activated initial) as Hin by (by vm_compute).
  split; [exact Hin|]. split; [reflexivity|].
  pose proof (activate_unavailable_returns_false library_missing
                "sklearn.ensemble" initial no_module Hin eq_refl eq_refl) as H.
  destruct (activate_cuml_accel_for_module library_missing "sklearn.ensemble"
              initial) as [r p'].
  destruct H as (Hr & _ & _ & Hset & _). by split.
Defined.

(** C4.  When the acceleration package cannot be imported, the activation
    routine is to return [False] for a module name that is not recorded
    active.  It does not whenever the import fails with an exception that
    is not an [ImportError]: the check of line 84 stands before the [try]
    block and line 30 catches [ImportError] only.  With a package that
    raises [RuntimeError] while it is loaded, the call for
    [sklearn.ensemble] at process start makes the one import attempt and
    then raises that exception; it returns nothing and logs nothing (the
    set and the table do stay unchanged). *)
Theorem activate_raises_when_import_fails :
  ("sklearn.ensemble" ∉ activated initial)
  /\ import_cuml_accel library_fails_on_import = Raise no_driver
  /\ activate_cuml_accel_for_module library_fails_on_import
       "sklearn.ensemble" initial
     = (Raise no_driver,
        journalled [Called ImportCumlAccel (Some no_driver)] initial)
  /\ fst (activate_cuml_accel_for_module library_fails_on_import
            "sklearn.ensemble" initial) <> Return false.
Proof.
  assert ("sklearn.ensemble" ∉ activated initial) as Hin by (by vm_compute).
  split_and!; [done|done| |].
  - by rewrite (activate_import_failed library_fails_on_import
                  "sklearn.ensemble" initial no_driver Hin eq_refl).
  - by rewrite (activate_import_failed library_fails_on_import
                  "sklearn.ensemble" initial no_driver Hin eq_refl).
Qed.

(** X21.  [is_cuml_accel_available] takes no argument.  It returns
    [True] exactly when the import of the package succeeds, and [False]
    exactly when the import raises [ImportError] or a subclass of it; an
    import that fails with an exception of any other class is not converted:
    that exception reaches the caller.  In every case the two globals and the
    set objects are untouched and the import is the only external call. *)
Theorem is_cuml_accel_available_outcome (ext : external) (p : process) :
  let '(r, p') := is_cuml_accel_available ext p in
  r = match import_cuml_accel ext with
      | Return _ => Return true
      | Raise e => if isinstance_ImportError e then Return false else Raise e
      end
  /\ heap p' = heap p
  /\ _activated_modules p' = _activated_modules p
  /\ activated p' = activated p
  /\ _accelerator p' = _accelerator p
  /\ events_since p p'
     = [Called ImportCumlAccel (raised (import_cuml_accel ext))].
Proof.
  rewrite is_cuml_accel_available_cases.
  destruct (import_cuml_accel ext) as [[]|e]; split_and!; try done;
    apply events_since_journalled.
Qed.

(** C6.  [is_cuml_accel_available] is to answer with a boolean, [True] if
    the package can be imported and [False] otherwise (its docstring, lines
    19-26), whatever way the import fails.  Line 30 catches [ImportError]
    only: with a package that raises [RuntimeError] while it is loaded, the
    import fails and the call, here at process start, does not return
    [False]; the exception reaches the caller. *)
Theorem is_cuml_accel_available_raises :
  import_cuml_accel library_fails_on_import = Raise no_driver
  /\ isinstance_ImportError no_driver = false
  /\ is_cuml_accel_available library_fails_on_import initial
     = (Raise no_driver,
        journalled [Called ImportCumlAccel (Some no_driver)] initial)
  /\ fst (is_cuml_accel_available library_fails_on_import initial)
     <> Return false.
Proof.
  split_and!; [done|done| |];
    by rewrite is_cuml_accel_available_cases.
Qed.

(** It is not the case that every failure of the import attempt is turned
    into a boolean. *)
Lemma is_cuml_accel_available_propagates :
  ~ (forall (ext : external) (p : process),
       exists b : bool,
         fst (is_cuml_accel_available ext p) = Return b
         /\ (b = true <-> import_cuml_accel ext = Return tt)).
Proof.
  intros Hclaim.
  destruct (Hclaim library_fails_on_import initial) as (b & Hb & _).
  by vm_compute in Hb.
Qed.

(** ** The demo *)

(** C7.  In [_run_autogluon_demo], a model string other than ["rf"],
    ["knn"] and ["lr"] ends the run with [ValueError] before any call to the
    predictor; for ["rf"], ["knn"] and ["lr"] the first call made is the fit
    of the predictor, with [hyperparameters] holding the single key ['RF'],
    ['KNN'] and ['LR'] respectively (and with the given number of GPUs). *)
Theorem run_autogluon_demo_dispatch (tp : predictor) (num_gpus : Z) :
  (forall model : string,
     model <> "rf" -> model <> "knn" -> model <> "lr" ->
     _run_autogluon_demo tp model num_gpus
     = (Raise (Exc ValueError ("Invalid model: " +:+ model)), []))
  /\ head (snd (_run_autogluon_demo tp "rf" num_gpus))
     = Some (Fit (demo_fit "target" "/tmp/demo_rf" "RF" num_gpus))
  /\ head (snd (_run_autogluon_demo tp "knn" num_gpus))
     = Some (Fit (demo_fit "target" "/tmp/demo_knn" "KNN" num_gpus))
  /\ head (snd (_run_autogluon_demo tp "lr" num_gpus))
     = Some (Fit (demo_fit "target" "/tmp/demo_lr" "LR" num_gpus))
  /\ fit_hyperparameters (demo_fit "target" "/tmp/demo_rf" "RF" num_gpus) = ["RF"]
  /\ fit_hyperparameters (demo_fit "target" "/tmp/demo_knn" "KNN" num_gpus) = ["KNN"]
  /\ fit_hyperparameters (demo_fit "target" "/tmp/demo_lr" "LR" num_gpus) = ["LR"].
Proof.
  split_and!; try reflexivity.
  - intros model Hrf Hknn Hlr. unfold _run_autogluon_demo.
    apply String.eqb_neq in Hrf, Hknn, Hlr. by rewrite Hrf, Hknn, Hlr.
  - unfold _run_autogluon_demo. cbn [String.eqb Ascii.eqb Bool.eqb].
    by destruct (fit_outcome tp _), (leaderboard_outcome tp).
  - unfold _run_autogluon_demo. cbn [String.eqb Ascii.eqb Bool.eqb].
    by destruct (fit_outcome tp _), (leaderboard_outcome tp).
  - unfold _run_autogluon_demo. cbn [String.eqb Ascii.eqb Bool.eqb].
    by destruct (fit_outcome tp _), (leaderboard_outcome tp).
Qed.

Lemma run_autogluon_demo_dispatch_witness :
  "xgb" <> "rf" /\ "xgb" <> "knn" /\ "xgb" <> "lr"
  /\ _run_autogluon_demo predictor_works "xgb" 1
     = (Raise (Exc ValueError "Invalid model: xgb"), []).
Proof.
  split_and!; try discriminate.
  apply (proj1 (run_autogluon_demo_dispatch predictor_works 1) "xgb");
    discriminate.
Defined.

(** ** Sequences of calls *)

Lemma run_snoc (ops : list op) (o : op) (s : session) :
  run (ops ++ [o]) s = exec o (run ops s).
Proof. unfold run. by rewrite foldl_snoc. Qed.

Lemma run_app (ops later : list op) (s : session) :
  run (ops ++ later) s = run later (run ops s).
Proof. unfold run. by rewrite foldl_app. Qed.

(** *** The module's set is never aliased by what the caller holds *)

Lemma store_ok_start : store_ok start.
Proof.
  split.
  - exists ∅. by vm_compute.
  - intros l Hl. by apply elem_of_nil in Hl.
Qed.

Lemma store_ok_journalled (evs : list event) (s : session) (hist : list call_record) :
  store_ok s ->
  store_ok {| proc := journalled evs (proc s); held := held s; history := hist |}.
Proof. by intros [Href Hheld]. Qed.

Lemma store_ok_recorded (evs : list event) (m : string) (h : handle)
    (s : session) (hist : list call_record) :
  store_ok s ->
  store_ok {| proc := journalled evs (recorded m h (proc s));
              held := held s; history := hist |}.
Proof.
  intros [Href Hheld]. split; [|done].
  cbn. rewrite lookup_insert_eq. by eexists.
Qed.

Lemma exec_store_ok (o : op) (s : session) : store_ok s -> store_ok (exec o s).
Proof.
  intros Hok. destruct o as [ext|m|ext m| |k mu]; cbn [exec].
  - rewrite is_cuml_accel_available_journalled. by apply store_ok_journalled.
  - by destruct Hok.
  - destruct (activate_cases ext m (proc s))
      as (r & evs & [[-> _]|(h & -> & _)]).
    + by apply store_ok_journalled.
    + by apply store_ok_recorded.
  - destruct Hok as [Href Hheld].
    assert (fresh (dom (heap (proc s))) <> _activated_modules (proc s)) as Hne.
    { intros Heq. apply (is_fresh (dom (heap (proc s)))).
      rewrite Heq. by apply elem_of_dom. }
    split; cbn.
    + by rewrite lookup_insert_ne.
    + intros l [Hl|Hl]%elem_of_app; [by apply Hheld|].
      apply list_elem_of_singleton in Hl. by subst.
  - destruct (held s !! k) as [l|] eqn:Hk; [|done].
    destruct Hok as [Href Hheld].
    assert (l <> _activated_modules (proc s)) as Hne
      by (by apply Hheld, list_elem_of_lookup_2 with k).
    split; cbn; [|done]. by rewrite lookup_alter_ne.
Qed.

Lemma run_store_ok (ops : list op) : store_ok (run ops start).
Proof.
  induction ops as [|o ops IH] using rev_ind; [apply store_ok_start|].
  rewrite run_snoc. by apply exec_store_ok.
Qed.

(** *** What one step does to the two globals and to the history *)

Lemma exec_effect (o : op) (s : session) :
  store_ok s ->
  (activated (proc (exec o s)) = activated (proc s)
   /\ _accelerator (proc (exec o s)) = _accelerator (proc s)
   /\ exists cs, history (exec o s) = history s ++ cs
        /\ forall c m, c ∈ cs -> activation_installed m c = false)
  \/ (exists m h c,
        (m ∉ activated (proc s))
        /\ activated (proc (exec o s)) = {[ m ]} ∪ activated (proc s)
        /\ _accelerator (proc (exec o s)) = <[ m := h ]> (_accelerator (proc s))
        /\ history (exec o s) = history s ++ [c]
        /\ registration_completed m c = true
        /\ forall m', activation_installed m' c = true <-> m' = m).
Proof.
  intros Hok. destruct o as [ext|m|ext m| |k mu]; cbn [exec].
  - left. rewrite is_cuml_accel_available_journalled. split_and!; try done.
    eexists [_]. split; [done|]. intros c m Hc.
    apply list_elem_of_singleton in Hc as ->. done.
  - left. split_and!; try done.
    eexists [_]. split; [done|]. intros c m' Hc.
    apply list_elem_of_singleton in Hc as ->. done.
  - destruct (activate_cases ext m (proc s))
      as (r & evs & [[-> Hr]|(h & -> & -> & Hin & Hreg & Hins)]).
    + left. split_and!; try done.
      eexists [_]. split; [done|]. intros c m' Hc.
      apply list_elem_of_singleton in Hc as ->.
      unfold activation_installed; cbn [cr_op cr_response cr_events].
      destruct r as [[]|]; try done.
      rewrite events_since_journalled.
      destruct (Hr eq_refl) as [_ ->]. by rewrite andb_false_r.
    + right. exists m, h. eexists. split_and!; try done.
      * cbn. by rewrite activated_journalled, activated_recorded.
      * unfold registration_completed; cbn [cr_events].
        by rewrite events_since_recorded.
      * intros m'. unfold activation_installed;
          cbn [cr_op cr_response cr_events].
        rewrite events_since_recorded, Hins, andb_true_r.
        split.
        -- intros Hm. by apply bool_decide_eq_true in Hm.
        -- intros ->. by rewrite bool_decide_true.
  - left. cbn. split_and!; try done.
    + destruct Hok as [Href _]. unfold activated; cbn.
      rewrite lookup_insert_ne; [done|].
      intros Heq. apply (is_fresh (dom (heap (proc s)))).
      rewrite Heq. by apply elem_of_dom.
    + eexists [_]. split; [done|]. intros c m Hc.
      apply list_elem_of_singleton in Hc as ->. done.
  - left. destruct (held s !! k) as [l|] eqn:Hk; cbn.
    + split_and!; try done.
      * destruct Hok as [_ Hheld]. unfold activated; cbn.
        rewrite lookup_alter_ne; [done|].
        by apply Hheld, list_elem_of_lookup_2 with k.
      * eexists [_]. split; [done|]. intros c m Hc.
        apply list_elem_of_singleton in Hc as ->. done.
    + split_and!; try done. exists []. split; [by rewrite app_nil_r|].
      intros c m Hc. by apply elem_of_nil in Hc.
Qed.

Lemma exec_monotone (o : op) (s : session) :
  store_ok s -> activated (proc s) ⊆ activated (proc (exec o s)).
Proof.
  intros Hok.
  destruct (exec_effect o s Hok)
    as [(-> & _)|(m & h & c & _ & -> & _)]; set_solver.
Qed.

Lemma run_monotone (later : list op) (s : session) :
  store_ok s -> activated (proc s) ⊆ activated (proc (run later s)).
Proof.
  intros Hok. induction later as [|o later IH] using rev_ind; [done|].
  rewrite run_snoc. etrans; [exact IH|].
  apply exec_monotone.
  clear IH. induction later as [|o' later IH] using rev_ind; [done|].
  rewrite run_snoc. by apply exec_store_ok.
Qed.

Lemma mutate_all_frame (l : loc) (mus : list mutation) (p : process) :
  l <> _activated_modules p ->
  _activated_modules (mutate_all l mus p) = _activated_modules p
  /\ activated (mutate_all l mus p) = activated p
  /\ _accelerator (mutate_all l mus p) = _accelerator p
  /\ journal (mutate_all l mus p) = journal p
  /\ heap (mutate_all l mus p) !! l
     = (fun s => foldl (fun s mu => apply_mutation mu s) s mus) <$> heap p !! l.
Proof.
  intros Hne. induction mus as [|mu mus IH] using rev_ind.
  { split_and!; try done. cbn. by destruct (heap p !! l). }
  destruct IH as (Href & Hact & Hacc & Hj & Hl).
  unfold mutate_all in *. rewrite !foldl_snoc.
  set (q := foldl (fun q mu => snd (mutate_set l mu q)) p mus) in *.
  cbn [mutate_set snd heap _activated_modules _accelerator journal].
  split_and!; try done.
  - rewrite <- Hact. unfold activated;
      cbn [heap _activated_modules]. rewrite lookup_alter_ne; [done|].
    by rewrite Href.
  - rewrite lookup_alter_eq, Hl.
    destruct (heap p !! l); cbn; [|done]. by rewrite foldl_snoc.
Qed.

(** A mutation through the module's own reference would show in the
    activated-module set: references to one object share its state. *)
Example mutation_through_alias :
  activated (snd (mutate_set (_activated_modules initial)
                    (SetAdd "sklearn.svm") initial))
  = {[ "sklearn.svm" ]}.
Proof. by vm_compute. Qed.

(** ** The claims about every reachable state *)

Lemma history_registered (ops : list op) (c : call_record) (m : string) :
  c ∈ history (run ops start) ->
  activation_installed m c = true ->
  registration_completed m c = true.
Proof.
  induction ops as [|o ops IH] using rev_ind.
  { intros Hc. by apply elem_of_nil in Hc. }
  rewrite run_snoc.
  destruct (exec_effect o (run ops start) (run_store_ok ops))
    as [(_ & _ & cs & -> & Hcs)
       |(m0 & h & c0 & _ & _ & _ & -> & Hreg & Hc0)].
  - intros [Hc|Hc]%elem_of_app Hm; [by apply IH|].
    by rewrite (Hcs c m Hc) in Hm.
  - intros [Hc|Hc]%elem_of_app Hm; [by apply IH|].
    apply list_elem_of_singleton in Hc as ->.
    by apply Hc0 in Hm as ->.
Qed.

(** C5.  After any sequence of calls from process start, a module name is
    in the activated-module set exactly when the history holds a call of
    the activation routine for that name that returned [True] and in which
    [install] was called and returned without raising; and in every such
    call [register] had been called for that name, with the derived wrapper
    name, and had returned.  Calls that return [True] from the first branch
    make no external call and so never count. *)
Theorem activated_iff_installed (ops : list op) (m : string) :
  (m ∈ activated (proc (run ops start))
   <-> exists c, c ∈ history (run ops start)
                 /\ activation_installed m c = true)
  /\ (forall c, c ∈ history (run ops start) ->
                activation_installed m c = true ->
                registration_completed m c = true).
Proof.
  split; [|intros c; apply history_registered].
  induction ops as [|o ops IH] using rev_ind.
  { split; [by vm_compute|]. intros (c & Hc & _). by apply elem_of_nil in Hc. }
  rewrite run_snoc.
  destruct (exec_effect o (run ops start) (run_store_ok ops))
    as [(-> & _ & cs & -> & Hcs)
       |(m0 & h & c0 & Hnew & -> & _ & -> & _ & Hc0)].
  - rewrite IH. split.
    + intros (c & Hc & Hm). exists c. split; [|done].
      apply elem_of_app. by left.
    + intros (c & [Hc|Hc]%elem_of_app & Hm); [by exists c|].
      by rewrite (Hcs c m Hc) in Hm.
  - rewrite elem_of_union, elem_of_singleton, IH. split.
    + intros [->|(c & Hc & Hm)].
      * exists c0. split; [|by apply Hc0].
        apply elem_of_app. right. by apply list_elem_of_singleton.
      * exists c. split; [|done]. apply elem_of_app. by left.
    + intros (c & [Hc|Hc]%elem_of_app & Hm); [right; by exists c|].
      apply list_elem_of_singleton in Hc as ->. left. by apply Hc0.
Qed.

Lemma activated_iff_installed_witness :
  let ops := [Activate library_fails_on_install "sklearn.neighbors";
              Activate (library_works 3) "sklearn.ensemble";
              Activate library_missing "sklearn.ensemble"] in
  ("sklearn.ensemble" ∈ activated (proc (run ops start)))
  /\ ~ ("sklearn.neighbors" ∈ activated (proc (run ops start))).
Proof.
  intros ops. split.
  - apply (proj1 (activated_iff_installed ops "sklearn.ensemble")).
    exists (default (CallRecord GetActivated RNone [])
              (history (run ops start) !! 1)).
    split; [|by vm_compute].
    vm_compute. apply list_elem_of_further, list_elem_of_here.
  - intros (c & Hc & Hm)%(proj1 (activated_iff_installed ops "sklearn.neighbors")).
    vm_compute in Hc. in_events Hc; subst c; by vm_compute in Hm.
Defined.

(** C8.  The activated-module set starts empty; no step of a caller (a call
    of any of the four functions, or a mutation of a set that
    [get_activated_modules] returned) removes a member; and a name that is
    in the set at some point is reported active by [is_module_accelerated]
    after any further sequence of steps. *)
Theorem activated_append_only :
  activated initial = ∅
  /\ (forall (ops : list op) (o : op),
        activated (proc (run ops start))
        ⊆ activated (proc (run (ops ++ [o]) start)))
  /\ (forall (ops later : list op) (m : string),
        m ∈ activated (proc (run ops start)) ->
        is_module_accelerated m (proc (run (ops ++ later) start))
        = (Return true, proc (run (ops ++ later) start))).
Proof.
  split_and!.
  - by vm_compute.
  - intros ops o. rewrite run_snoc. apply exec_monotone, run_store_ok.
  - intros ops later m Hm. rewrite run_app.
    unfold is_module_accelerated, set_contains.
    rewrite bool_decide_true; [done|].
    by apply (run_monotone later _ (run_store_ok ops)).
Qed.

Lemma activated_append_only_witness :
  let ops := [Activate (library_works 3) "sklearn.ensemble"] in
  let later := [GetActivated; Mutate 0 SetClear;
                Activate library_fails_on_import "sklearn.svm"] in
  ("sklearn.ensemble" ∈ activated (proc (run ops start)))
  /\ fst (is_module_accelerated "sklearn.ensemble"
            (proc (run (ops ++ later) start))) = Return true.
Proof.
  intros ops later.
  assert ("sklearn.ensemble" ∈ activated (proc (run ops start))) as Hm.
  { by vm_compute. }
  split; [exact Hm|].
  destruct activated_append_only as (_ & _ & Hlater).
  by rewrite (Hlater ops later "sklearn.ensemble" Hm).
Defined.

Lemma activate_records (ext : external) (m : string) (p p' : process) :
  m ∉ activated p ->
  activate_cuml_accel_for_module ext m p = (Return true, p') ->
  exists h evs,
    Accelerator_new ext = Return h
    /\ p' = journalled evs (recorded m h p).
Proof.
  intros Hin Hrun.
  destruct (import_cuml_accel ext) as [[]|e] eqn:Himp.
  2: { rewrite (activate_import_failed ext m p e Hin Himp) in Hrun.
       by destruct (isinstance_ImportError e). }
  rewrite (activate_try ext m p Hin Himp) in Hrun.
  destruct (try_block ext m) as [evs [h|e]] eqn:Htry.
  - apply try_block_installed in Htry as (_ & _ & Hnew).
    injection Hrun as <-. by eexists _, _.
  - by destruct (isinstance_Exception e).
Qed.

(** C10.  Both globals start empty, and after any sequence of calls the
    activated-module set is the key set of the accelerator table, so that a
    name has an instance exactly when it is recorded active.  The two are
    written together: a call of the activation routine that returns [True]
    for a name not yet recorded adds that name to the set and, under the
    same name, the instance it constructed to the table; after every call
    that returns [True] the name is in both; and every step of a caller
    either leaves both as they were or is such an activation, adding one
    name to both. *)
Theorem activated_is_table_keys :
  activated initial = ∅
  /\ _accelerator initial = ∅
  /\ (forall ops : list op,
        activated (proc (run ops start))
        = dom (_accelerator (proc (run ops start))))
  /\ (forall (ops : list op) (m : string),
        m ∈ activated (proc (run ops start))
        <-> is_Some (_accelerator (proc (run ops start)) !! m))
  /\ (forall (ext : external) (m : string) (p p' : process),
        m ∉ activated p ->
        activate_cuml_accel_for_module ext m p = (Return true, p') ->
        exists h,
          Accelerator_new ext = Return h
          /\ activated p' = {[ m ]} ∪ activated p
          /\ _accelerator p' = <[ m := h ]> (_accelerator p))
  /\ (forall (ops : list op) (ext : external) (m : string) (p' : process),
        activate_cuml_accel_for_module ext m (proc (run ops start))
        = (Return true, p') ->
        (m ∈ activated p') /\ is_Some (_accelerator p' !! m))
  /\ (forall (ops : list op) (o : op),
        (activated (proc (run (ops ++ [o]) start))
         = activated (proc (run ops start))
         /\ _accelerator (proc (run (ops ++ [o]) start))
            = _accelerator (proc (run ops start)))
        \/ (exists m h c,
              (m ∉ activated (proc (run ops start)))
              /\ activated (proc (run (ops ++ [o]) start))
                 = {[ m ]} ∪ activated (proc (run ops start))
              /\ _accelerator (proc (run (ops ++ [o]) start))
                 = <[ m := h ]> (_accelerator (proc (run ops start)))
              /\ history (run (ops ++ [o]) start)
                 = history (run ops start) ++ [c]
              /\ activation_installed m c = true)).
Proof.
  assert (forall ops : list op,
            activated (proc (run ops start))
            = dom (_accelerator (proc (run ops start)))) as Hkeys.
  { intros ops.
    induction ops as [|o ops IH] using rev_ind; [by vm_compute|].
    rewrite run_snoc.
    destruct (exec_effect o (run ops start) (run_store_ok ops))
      as [(-> & -> & _)|(m & h & c & _ & -> & -> & _)]; [done|].
    by rewrite dom_insert_L, IH. }
  assert (forall (ext : external) (m : string) (p p' : process),
            m ∉ activated p ->
            activate_cuml_accel_for_module ext m p = (Return true, p') ->
            exists h,
              Accelerator_new ext = Return h
              /\ activated p' = {[ m ]} ∪ activated p
              /\ _accelerator p' = <[ m := h ]> (_accelerator p)) as Hadd.
  { intros ext m p p' Hin Hrun.
    destruct (activate_records ext m p p' Hin Hrun) as (h & evs & Hnew & ->).
    exists h. split_and!; [done| |done].
    by rewrite activated_journalled, activated_recorded. }
  split_and!; [by vm_compute|done|exact Hkeys| |exact Hadd| |].
  - intros ops m. rewrite Hkeys. apply elem_of_dom.
  - intros ops ext m p' Hrun.
    destruct (decide (m ∈ activated (proc (run ops start)))) as [Hin|Hin].
    + rewrite (activate_already_active ext m _ Hin) in Hrun.
      injection Hrun as <-. rewrite activated_journalled. split; [done|].
      cbn. apply elem_of_dom. by rewrite <- Hkeys.
    + destruct (Hadd ext m _ p' Hin Hrun) as (h & _ & -> & ->). split.
      * apply elem_of_union. left. by apply elem_of_singleton.
      * rewrite lookup_insert_eq. by eexists.
  - intros ops o. rewrite run_snoc.
    destruct (exec_effect o (run ops start) (run_store_ok ops))
      as [(Hact & Htab & _)|(m & h & c & Hnew & Hact & Htab & Hhist & _ & Hc)].
    + by left.
    + right. exists m, h, c. split_and!; try done. by apply Hc.
Qed.

Lemma activated_is_table_keys_witness :
  let r := activate_cuml_accel_for_module (library_works 7)
             "sklearn.ensemble" initial in
  ("sklearn.ensemble" ∉ activated initial)
  /\ fst r = Return true
  /\ activated (snd r) = {[ "sklearn.ensemble" ]} ∪ activated initial
  /\ _accelerator (snd r)
     = <[ "sklearn.ensemble" := 7 ]> (_accelerator initial).
Proof.
  intros r.
  assert ("sklearn.ensemble" ∉ activated initial) as Hin by (by vm_compute).
  assert (fst r = Return true) as Hr by (by vm_compute).
  split; [exact Hin|]. split; [exact Hr|].
  destruct activated_is_table_keys as (_ & _ & _ & _ & Hadd & _).
  destruct (Hadd (library_works 7) "sklearn.ensemble" initial (snd r) Hin)
    as (h & Hnew & Hact & Htab).
  - rewrite <- Hr. symmetry. apply surjective_pairing.
  - injection Hnew as <-. by split.
Defined.

(** C9.  In any reachable state, [get_activated_modules] returns a
    reference to a new set object (one that was not in the store, hence not
    the module's own set) whose members are those of the activated-module
    set; the call changes neither global, nor any existing set object, nor
    the journal; and whatever mutations the caller then applies to the
    returned set (which does change), the activated-module set and the
    accelerator table stay as they were. *)
Theorem get_activated_modules_snapshot (ops : list op) :
  let p := proc (run ops start) in
  exists (l : loc) (p' : process),
    get_activated_modules p = (Return l, p')
    /\ heap p !! l = None
    /\ l <> _activated_modules p
    /\ heap p' !! l = Some (activated p)
    /\ delete l (heap p') = heap p
    /\ _activated_modules p' = _activated_modules p
    /\ activated p' = activated p
    /\ _accelerator p' = _accelerator p
    /\ journal p' = journal p
    /\ forall mus : list mutation,
         activated (mutate_all l mus p') = activated p
         /\ _accelerator (mutate_all l mus p') = _accelerator p
         /\ heap (mutate_all l mus p') !! l
            = Some (foldl (fun s mu => apply_mutation mu s) (activated p) mus).
Proof.
  intros p. destruct (run_store_ok ops) as [Href _]. fold p in Href.
  set (l := fresh (dom (heap p))).
  assert (heap p !! l = None) as Hfresh
    by apply not_elem_of_dom, is_fresh.
  assert (l <> _activated_modules p) as Hne.
  { intros Heq. rewrite Heq in Hfresh. rewrite Hfresh in Href.
    by destruct Href. }
  eexists l, _. split; [reflexivity|]. cbn.
  assert (activated
            {| heap := <[l:=activated p]> (heap p);
               _activated_modules := _activated_modules p;
               _accelerator := _accelerator p; journal := journal p |}
          = activated p) as Hact.
  { unfold activated at 1; cbn. by rewrite lookup_insert_ne. }
  split_and!; try done.
  - by rewrite lookup_insert_eq.
  - by rewrite delete_insert_eq, delete_id.
  - intros mus.
    edestruct (mutate_all_frame l mus) as (_ & Hact' & Hacc' & _ & Hl');
      [|rewrite Hact', Hacc', Hl']; [done|].
    cbn. by rewrite lookup_insert_eq.
Qed.

(* ===================================================================== *)
(** * Further properties of the code *)
(* ===================================================================== *)

(** ** The activation routine *)

Lemma works_for_try_block (ext : external) (m : string) (h : handle) :
  works_for ext m h ->
  try_block ext m
  = ([Called ImportAccelerator None; Called ImportExclude None;
      Called NewAccelerator None;
      Log 15 ("Created cuML Accelerator instance for " +:+ m);
      Called (Register m (wrapper_module m)) None; Called Install None],
     Return h).
Proof.
  intros (_ & Hacc & Hexc & Hnew & Hreg & Hins). unfold try_block.
  by rewrite Hacc, Hexc, Hnew, Hreg, Hins.
Qed.

Lemma activate_works (ext : external) (m : string) (h : handle) (p : process) :
  m ∉ activated p ->
  works_for ext m h ->
  activate_cuml_accel_for_module ext m p
  = (Return true, journalled (success_events m) (recorded m h p)).
Proof.
  intros Hin Hw. pose proof Hw as (Himp & _).
  rewrite (activate_try ext m p Hin Himp).
  by rewrite (works_for_try_block ext m h Hw).
Qed.

(** X1.  For a module name that is not recorded active, when every external
    call returns, the activation routine returns [True]; afterwards the
    name is in the activated-module set, the accelerator table maps it to
    the instance constructed in this very call, and the journal has grown
    by the eight entries of the success path, in the order of the source:
    the import of the package, the two component imports, the
    construction, its log record, [register] with the derived wrapper
    name, [install], the final log record. *)
Theorem activate_success (ext : external) (m : string) (h : handle)
    (p : process) :
  m ∉ activated p ->
  works_for ext m h ->
  let '(r, p') := activate_cuml_accel_for_module ext m p in
  r = Return true
  /\ activated p' = {[ m ]} ∪ activated p
  /\ _accelerator p' = <[ m := h ]> (_accelerator p)
  /\ _accelerator p' !! m = Some h
  /\ _activated_modules p' = _activated_modules p
  /\ events_since p p' = success_events m.
Proof.
  intros Hin Hw. rewrite (activate_works ext m h p Hin Hw).
  split_and!; try done.
  - by rewrite activated_journalled, activated_recorded.
  - cbn. by rewrite lookup_insert_eq.
  - apply events_since_recorded.
Qed.

Lemma library_works_for (h : handle) (m : string) :
  works_for (library_works h) m h.
Proof. by repeat split. Qed.

Lemma activate_success_witness :
  let r := activate_cuml_accel_for_module (library_works 7)
             "sklearn.neighbors" initial in
  ("sklearn.neighbors" ∉ activated initial)
  /\ fst r = Return true
  /\ _accelerator (snd r) !! "sklearn.neighbors" = Some 7.
Proof.
  intros r.
  assert ("sklearn.neighbors" ∉ activated initial) as Hin by (by vm_compute).
  split; [exact Hin|].
  pose proof (activate_success (library_works 7) "sklearn.neighbors" 7
                initial Hin (library_works_for 7 _)) as H.
  fold r in H. destruct r as [r p'].
  destruct H as (Hr & _ & _ & Hh & _). by split.
Defined.

(** X2.  A call of the activation routine for one module name, however it
    ends, leaves every other name as it was: the same membership in the
    activated-module set and the same entry, or none, in the accelerator
    table. *)
Theorem activate_leaves_other_modules (ext : external) (m m' : string)
    (p : process) :
  m' <> m ->
  let p' := snd (activate_cuml_accel_for_module ext m p) in
  (m' ∈ activated p' <-> m' ∈ activated p)
  /\ _accelerator p' !! m' = _accelerator p !! m'.
Proof.
  intros Hne.
  destruct (activate_cases ext m p) as (r & evs & [[-> _]|(h & -> & _)]);
    cbn [snd].
  - done.
  - rewrite activated_journalled, activated_recorded. split.
    + rewrite elem_of_union, elem_of_singleton.
      split; [by intros [Heq|Hin]|by right].
    + cbn. by rewrite lookup_insert_ne.
Qed.

Lemma activate_leaves_other_modules_witness :
  let p := snd (activate_cuml_accel_for_module (library_works 1)
                  "sklearn.svm" initial) in
  let p' := snd (activate_cuml_accel_for_module (library_works 2)
                   "sklearn.ensemble" p) in
  "sklearn.svm" <> "sklearn.ensemble"
  /\ _accelerator p' !! "sklearn.svm" = _accelerator p !! "sklearn.svm".
Proof.
  intros p p'. split; [discriminate|].
  apply (activate_leaves_other_modules (library_works 2) "sklearn.ensemble"
           "sklearn.svm" p).
  discriminate.
Defined.

(** X3.  The value returned by the activation routine tells whether the
    module is recorded active afterwards: the call returns [True] exactly
    when the name is in the activated-module set after the call, which is
    exactly when [is_module_accelerated], asked next, returns [True]. *)
Theorem activate_result_is_membership (ext : external) (m : string)
    (p : process) :
  let '(r, p') := activate_cuml_accel_for_module ext m p in
  (r = Return true <-> m ∈ activated p')
  /\ (r = Return true <-> fst (is_module_accelerated m p') = Return true).
Proof.
  assert (let '(r, p') := activate_cuml_accel_for_module ext m p in
          r = Return true <-> m ∈ activated p') as H.
  { destruct (decide (m ∈ activated p)) as [Hin|Hin].
    { by rewrite (activate_already_active ext m p Hin). }
    destruct (activate_cases ext m p)
      as (r & evs & [[-> Hr]|(h & -> & -> & _)]).
    - rewrite activated_journalled. split; [|done].
      intros Hr'. by destruct (Hr Hr').
    - rewrite activated_journalled, activated_recorded. set_solver. }
  destruct (activate_cuml_accel_for_module ext m p) as [r p'].
  split; [done|]. rewrite H.
  unfold is_module_accelerated, set_contains; cbn. split.
  - intros Hin. by rewrite bool_decide_true.
  - intros [= Hb]. by apply bool_decide_eq_true in Hb.
Qed.

(** X4.  A failure is not remembered.  After a call for a module name that
    did not return [True] (it returned [False] or raised), a later call for
    the same name with a library whose calls all return goes through the
    whole success path and records the module with the new instance. *)
Theorem activate_retry_after_failure (ext1 ext2 : external) (m : string)
    (h : handle) (p p1 : process) (r1 : outcome bool) :
  activate_cuml_accel_for_module ext1 m p = (r1, p1) ->
  r1 <> Return true ->
  works_for ext2 m h ->
  activate_cuml_accel_for_module ext2 m p1
  = (Return true, journalled (success_events m) (recorded m h p1)).
Proof.
  intros Hrun Hr1 Hw. apply activate_works; [|done].
  destruct (activate_cases ext1 m p)
    as (r & evs & [[Hrun' Hr]|(h' & Hrun' & Hr & _)]);
    rewrite Hrun in Hrun'; injection Hrun' as Hr1' Hp1; subst r p1;
    [|done].
  rewrite activated_journalled. intros Hin. apply Hr1.
  rewrite (activate_already_active ext1 m p Hin) in Hrun.
  by injection Hrun.
Qed.

Lemma activate_retry_after_failure_witness :
  let p1 := snd (activate_cuml_accel_for_module library_fails_on_install
                   "sklearn.ensemble" initial) in
  let r2 := activate_cuml_accel_for_module (library_works 5)
              "sklearn.ensemble" p1 in
  fst r2 = Return true
  /\ _accelerator (snd r2) !! "sklearn.ensemble" = Some 5.
Proof.
  intros p1 r2. unfold r2.
  rewrite (activate_retry_after_failure library_fails_on_install
             (library_works 5) "sklearn.ensemble" 5 initial p1
             (Return false)).
  - split; [done|]. cbn. by rewrite lookup_insert_eq.
  - by vm_compute.
  - discriminate.
  - apply library_works_for.
Defined.

(** X5.  The clause of line 112 names [Exception]: when a call made inside
    the [try] block raises an exception of a class outside [Exception]
    (such as [KeyboardInterrupt]), the activation routine does not return;
    that exception reaches the caller, nothing is logged after the failed
    call, and the set objects and both globals are as before. *)
Theorem activate_lets_base_exceptions_through (ext : external) (m : string)
    (p p' : process) (r : outcome bool) (c : ext_call) (e : exc) :
  activate_cuml_accel_for_module ext m p = (r, p') ->
  Called c (Some e) ∈ events_since p p' ->
  inside_try c = true ->
  isinstance_Exception e = false ->
  r = Raise e
  /\ heap p' = heap p
  /\ _activated_modules p' = _activated_modules p
  /\ _accelerator p' = _accelerator p
  /\ last (journal p') = Some (Called c (Some e)).
Proof.
  intros Hrun Hev Hc He.
  destruct (decide (m ∈ activated p)) as [Hin|Hin].
  { rewrite activate_already_active in Hrun by done.
    injection Hrun as <- <-. rewrite events_since_journalled in Hev.
    by in_events Hev. }
  destruct (import_cuml_accel ext) as [[]|e0] eqn:Himp.
  2: { rewrite (activate_import_failed ext m p e0 Hin Himp) in Hrun.
       destruct (isinstance_ImportError e0); injection Hrun as <- <-;
         rewrite events_since_journalled in Hev; in_events Hev;
         by simplify_eq. }
  rewrite (activate_try ext m p Hin Himp) in Hrun.
  destruct (try_block ext m) as [evs o] eqn:Htry.
  assert (Called c (Some e) ∈ evs) as Hevs.
  { destruct o as [h|e1].
    - injection Hrun as <- <-. rewrite events_since_recorded in Hev.
      apply elem_of_cons in Hev as [Hev|Hev]; [by simplify_eq|].
      apply elem_of_app in Hev as [Hev|Hev]; [done|by in_events Hev].
    - destruct (isinstance_Exception e1); injection Hrun as <- <-;
        rewrite events_since_journalled in Hev.
      + apply elem_of_cons in Hev as [Hev|Hev]; [by simplify_eq|].
        apply elem_of_app in Hev as [Hev|Hev]; [done|by in_events Hev].
      + by apply elem_of_cons in Hev as [Hev|Hev]; [simplify_eq|]. }
  pose proof (try_block_raised _ _ _ _ _ _ Htry Hevs) as ->.
  rewrite He in Hrun. injection Hrun as <- <-.
  split_and!; try done.
  cbn [journalled journal]. clear Hev.
  revert Htry Hevs. unfold try_block.
  destruct (import_Accelerator ext) as [[]|e1].
  2: { intros [= <- <-] Hevs. in_events Hevs. simplify_eq.
       by rewrite last_app. }
  destruct (import_exclude ext) as [[]|e2].
  2: { intros [= <- <-] Hevs. in_events Hevs. simplify_eq.
       by rewrite last_app. }
  destruct (Accelerator_new ext) as [h|e3].
  2: { intros [= <- <-] Hevs. in_events Hevs. simplify_eq.
       by rewrite last_app. }
  destruct (Accelerator_register ext m (wrapper_module m)) as [[]|e4].
  2: { intros [= <- <-] Hevs. in_events Hevs. simplify_eq.
       by rewrite last_app. }
  destruct (Accelerator_install ext) as [[]|e5]; [done|].
  intros [= <- <-] Hevs. in_events Hevs. simplify_eq.
  by rewrite last_app.
Qed.

Lemma activate_lets_base_exceptions_through_witness :
  let r := activate_cuml_accel_for_module library_interrupted_on_install
             "sklearn.ensemble" initial in
  isinstance_Exception interrupted = false
  /\ fst r = Raise interrupted
  /\ _accelerator (snd r) = _accelerator initial.
Proof.
  intros r. split; [reflexivity|].
  destruct (activate_lets_base_exceptions_through
              library_interrupted_on_install "sklearn.ensemble" initial
              (snd r) (fst r) Install interrupted)
    as (Hr & _ & _ & Htab & _).
  - symmetry. apply surjective_pairing.
  - vm_compute. repeat constructor.
  - reflexivity.
  - reflexivity.
  - by split.
Defined.

(** X6.  The availability check of line 84 stands outside the [try] block:
    for a module name that is not recorded active, when the import of the
    package raises an exception that is not an [ImportError], the
    activation routine raises that exception instead of returning [False];
    the import is the only external call made, nothing is logged, and the
    set objects and both globals are as before. *)
Theorem activate_propagates_import_failure (ext : external) (m : string)
    (p : process) (e : exc) :
  m ∉ activated p ->
  import_cuml_accel ext = Raise e ->
  isinstance_ImportError e = false ->
  let '(r, p') := activate_cuml_accel_for_module ext m p in
  r = Raise e
  /\ heap p' = heap p
  /\ _activated_modules p' = _activated_modules p
  /\ _accelerator p' = _accelerator p
  /\ events_since p p' = [Called ImportCumlAccel (Some e)].
Proof.
  intros Hin Himp He.
  rewrite (activate_import_failed ext m p e Hin Himp), He.
  split_and!; try done. apply events_since_journalled.
Qed.

Lemma activate_propagates_import_failure_witness :
  ("sklearn.ensemble" ∉ activated initial)
  /\ isinstance_ImportError no_driver = false
  /\ fst (activate_cuml_accel_for_module library_fails_on_import
            "sklearn.ensemble" initial) = Raise no_driver.
Proof.
  assert ("sklearn.ensemble" ∉ activated initial) as Hin by (by vm_compute).
  split; [exact Hin|]. split; [reflexivity|].
  pose proof (activate_propagates_import_failure library_fails_on_import
                "sklearn.ensemble" initial no_driver Hin eq_refl eq_refl)
    as H.
  destruct (activate_cuml_accel_for_module library_fails_on_import
              "sklearn.ensemble" initial) as [r p'].
  by destruct H as (Hr & _).
Defined.

(** ** Over every sequence of calls *)

Lemma run_table_keys (ops : list op) :
  activated (proc (run ops start)) = dom (_accelerator (proc (run ops start))).
Proof.
  induction ops as [|o ops IH] using rev_ind; [by vm_compute|].
  rewrite run_snoc.
  destruct (exec_effect o (run ops start) (run_store_ok ops))
    as [(-> & -> & _)|(m & h & c & _ & -> & -> & _)]; [done|].
  by rewrite dom_insert_L, IH.
Qed.

Lemma installations_app (m : string) (a b : list call_record) :
  installations m (a ++ b) = installations m a + installations m b.
Proof. unfold installations. by rewrite List.filter_app, length_app. Qed.

Lemma installations_none (m : string) (cs : list call_record) :
  (forall c, c ∈ cs -> activation_installed m c = false) ->
  installations m cs = 0.
Proof.
  unfold installations. induction cs as [|c cs IH]; [done|].
  intros Hcs. cbn. rewrite (Hcs c) by apply list_elem_of_here.
  apply IH. intros c' Hc'. by apply Hcs, list_elem_of_further.
Qed.

(** X7.  No module is installed twice.  After any sequence of calls, the
    history holds exactly one call of the activation routine that returned
    [True] with [install] completed for each name in the activated-module
    set, and none for any other name: once a module is recorded, later
    calls for it never reach [install] again, and a call whose [install]
    completed always records the module. *)
Theorem installed_exactly_once (ops : list op) (m : string) :
  installations m (history (run ops start))
  = if bool_decide (m ∈ activated (proc (run ops start))) then 1 else 0.
Proof.
  induction ops as [|o ops IH] using rev_ind; [by vm_compute|].
  rewrite run_snoc.
  destruct (exec_effect o (run ops start) (run_store_ok ops))
    as [(-> & _ & cs & -> & Hcs)
       |(m0 & h & c0 & Hnew & -> & _ & -> & _ & Hc0)].
  - rewrite installations_app, IH, installations_none; [lia|].
    intros c Hc. by apply Hcs.
  - rewrite installations_app, IH.
    destruct (decide (m = m0)) as [->|Hne].
    + rewrite (bool_decide_false _ Hnew), bool_decide_true.
      * unfold installations; cbn. by rewrite (proj2 (Hc0 m0) eq_refl).
      * apply elem_of_union. left. by apply elem_of_singleton.
    + assert (activation_installed m c0 = false) as Hm.
      { destruct (activation_installed m c0) eqn:Hm; [|done].
        by apply Hc0 in Hm. }
      unfold installations; cbn. rewrite Hm; cbn.
      rewrite Nat.add_0_r.
      erewrite (bool_decide_ext (m ∈ {[m0]} ∪ _)); [done|].
      rewrite elem_of_union, elem_of_singleton.
      split; [by intros [Heq|Hin]|by right].
Qed.

Lemma step_keeps_handle (ops : list op) (o : op) (m : string) (h : handle) :
  _accelerator (proc (run ops start)) !! m = Some h ->
  _accelerator (proc (run (ops ++ [o]) start)) !! m = Some h.
Proof.
  intros Hm. rewrite run_snoc.
  destruct (exec_effect o (run ops start) (run_store_ok ops))
    as [(_ & -> & _)|(m0 & h0 & c & Hnew & _ & -> & _)]; [done|].
  rewrite lookup_insert_ne; [done|]. intros ->.
  apply Hnew. rewrite run_table_keys. apply elem_of_dom. by eexists.
Qed.

(** X8.  The instance stored for a module is never replaced or removed:
    once the accelerator table maps a name to an instance, it maps that
    name to the same instance after any further sequence of calls,
    whatever the external library does in them. *)
Theorem handle_is_kept (ops later : list op) (m : string) (h : handle) :
  _accelerator (proc (run ops start)) !! m = Some h ->
  _accelerator (proc (run (ops ++ later) start)) !! m = Some h.
Proof.
  intros Hm. induction later as [|o later IH] using rev_ind.
  - by rewrite app_nil_r.
  - rewrite app_assoc. by apply step_keeps_handle.
Qed.

Lemma handle_is_kept_witness :
  let ops := [Activate (library_works 3) "sklearn.ensemble"] in
  let later := [Activate (library_works 4) "sklearn.ensemble";
                Activate (library_works 5) "sklearn.svm"] in
  _accelerator (proc (run ops start)) !! "sklearn.ensemble" = Some 3
  /\ _accelerator (proc (run (ops ++ later) start)) !! "sklearn.ensemble"
     = Some 3.
Proof.
  intros ops later.
  assert (_accelerator (proc (run ops start)) !! "sklearn.ensemble" = Some 3)
    as Hm by (by vm_compute).
  split; [exact Hm|]. by apply handle_is_kept.
Defined.

Lemma try_block_conforms (ext : external) (m : string) :
  forallb event_conforms (fst (try_block ext m)) = true.
Proof.
  unfold try_block.
  destruct (import_Accelerator ext) as [[]|e1]; [|done].
  destruct (import_exclude ext) as [[]|e2]; [|done].
  destruct (Accelerator_new ext) as [h|e3]; [|done].
  destruct (Accelerator_register ext m (wrapper_module m)) as [[]|e4];
    [|cbn; by rewrite bool_decide_true].
  destruct (Accelerator_install ext) as [[]|e5];
    cbn; by rewrite bool_decide_true.
Qed.

Lemma activate_journal (ext : external) (m : string) (p : process) :
  exists evs,
    journal (snd (activate_cuml_accel_for_module ext m p)) = journal p ++ evs
    /\ forallb event_conforms evs = true.
Proof.
  destruct (decide (m ∈ activated p)) as [Hin|Hin].
  { rewrite (activate_already_active ext m p Hin). by eexists. }
  destruct (import_cuml_accel ext) as [[]|e] eqn:Himp.
  2: { rewrite (activate_import_failed ext m p e Hin Himp).
       destruct (isinstance_ImportError e); by eexists. }
  rewrite (activate_try ext m p Hin Himp).
  pose proof (try_block_conforms ext m) as Hc.
  destruct (try_block ext m) as [evs [h|e]]; cbn [fst] in Hc.
  - eexists. split; [done|]. cbn [forallb event_conforms].
    by rewrite forallb_app, Hc.
  - destruct (isinstance_Exception e); (eexists; split; [done|]);
      cbn [forallb event_conforms]; [by rewrite forallb_app, Hc|done].
Qed.

Lemma exec_journal (o : op) (s : session) :
  exists evs,
    journal (proc (exec o s)) = journal (proc s) ++ evs
    /\ forallb event_conforms evs = true.
Proof.
  destruct o as [ext|m|ext m| |k mu]; cbn [exec].
  - rewrite is_cuml_accel_available_journalled. by eexists.
  - exists []. by rewrite app_nil_r.
  - destruct (activate_journal ext m (proc s)) as (evs & Hj & Hc).
    destruct (activate_cuml_accel_for_module ext m (proc s)) as [r p'].
    by exists evs.
  - exists []. by rewrite app_nil_r.
  - exists []. destruct (held s !! k); by rewrite app_nil_r.
Qed.

(** X9.  The journal only grows, and everything the module writes to it
    has the same shape: after any sequence of calls each step has appended
    to the journal without touching what was there, every log record is at
    level 15, and every call of [register] was given the wrapper name
    derived from the module name it was called for. *)
Theorem journal_conforms (ops : list op) :
  forallb event_conforms (journal (proc (run ops start))) = true
  /\ forall o : op,
       exists evs,
         journal (proc (run (ops ++ [o]) start))
         = journal (proc (run ops start)) ++ evs.
Proof.
  split.
  - induction ops as [|o ops IH] using rev_ind; [done|].
    rewrite run_snoc.
    destruct (exec_journal o (run ops start)) as (evs & -> & Hc).
    by rewrite forallb_app, IH, Hc.
  - intros o. rewrite run_snoc.
    destruct (exec_journal o (run ops start)) as (evs & -> & _).
    by exists evs.
Qed.

(** X10.  What [get_activated_modules] returns is a snapshot, not a view:
    in any reachable state, after the call the returned set object keeps
    the members it was made with through any later call of the activation
    routine, also one that records a new module; and a second call of
    [get_activated_modules] returns a different object. *)
Theorem snapshot_is_not_live (ops : list op) (ext : external) (m : string) :
  let p := proc (run ops start) in
  let l := fresh (dom (heap p)) in
  let p1 := snd (get_activated_modules p) in
  fst (get_activated_modules p) = Return l
  /\ heap (snd (activate_cuml_accel_for_module ext m p1)) !! l
     = Some (activated p)
  /\ exists l2, fst (get_activated_modules p1) = Return l2 /\ l2 <> l.
Proof.
  intros p l p1. destruct (run_store_ok ops) as [Href _]. fold p in Href.
  assert (l <> _activated_modules p) as Hne.
  { intros Heq. apply (is_fresh (dom (heap p))). fold l. rewrite Heq.
    by apply elem_of_dom. }
  assert (heap p1 !! l = Some (activated p)) as Hl.
  { cbn. by rewrite lookup_insert_eq. }
  split_and!; [done| |].
  - destruct (activate_cases ext m p1)
      as (r & evs & [[-> _]|(h & -> & _)]); cbn [snd]; [done|].
    cbn. by rewrite lookup_insert_ne.
  - eexists. split; [reflexivity|]. intros Heq.
    apply (is_fresh (dom (heap p1))). rewrite Heq.
    apply elem_of_dom. by eexists.
Qed.

(** ** The wrapper module name *)

Lemma string_app_assoc (a b c : string) : (a +:+ b) +:+ c = a +:+ b +:+ c.
Proof.
  induction a as [|x a IH]; [done|].
  change (String x ((a +:+ b) +:+ c) = String x (a +:+ b +:+ c)).
  by f_equal.
Qed.

Lemma string_app_length (a b : string) :
  String.length (a +:+ b) = String.length a + String.length b.
Proof.
  induction a as [|x a IH]; [done|].
  change (S (String.length (a +:+ b)) = S (String.length a + String.length b)).
  by f_equal.
Qed.

(** Whether [old] starts a string is decided by its first [length old]
    characters. *)
Lemma starts_with_long (old x z : string) :
  String.length old <= String.length x ->
  PyStr.starts_with old (x +:+ z) = PyStr.starts_with old x.
Proof.
  unfold PyStr.starts_with. revert x.
  induction old as [|c old IH]; intros x Hlen.
  - by destruct x, z.
  - destruct x as [|d x].
    + change (S (String.length old) <= 0) in Hlen. lia.
    + change (S (String.length old) <= S (String.length x)) in Hlen.
      change (String d x +:+ z) with (String d (x +:+ z)).
      cbn [String.prefix].
      destruct (Ascii.ascii_dec c d); [|done]. apply IH. lia.
Qed.

Lemma replace_token_first (a b : string) :
  PyStr.occurs "sklearn" (a +:+ "sklear") = false ->
  PyStr.replace_from "sklearn" "cuml.accel._wrappers.sklearn" 0
    (a +:+ "sklearn" +:+ b)
  = a +:+ "cuml.accel._wrappers.sklearn"
      +:+ PyStr.replace_from "sklearn" "cuml.accel._wrappers.sklearn" 0 b.
Proof.
  induction a as [|c a IH]; intros Hocc.
  - change ("" +:+ "sklearn" +:+ b) with ("sklearn" +:+ b).
    exact (replace_leading "sklearn" "cuml.accel._wrappers.sklearn" b
             ltac:(done)).
  - change (PyStr.occurs "sklearn" (String c a +:+ "sklear"))
      with (PyStr.starts_with "sklearn" (String c (a +:+ "sklear"))
            || PyStr.occurs "sklearn" (a +:+ "sklear")) in Hocc.
    apply orb_false_elim in Hocc as [Hhd Htl].
    change (String c a +:+ "sklearn" +:+ b)
      with (String c (a +:+ "sklearn" +:+ b)).
    cbn [PyStr.replace_from].
    assert (PyStr.starts_with "sklearn" (String c (a +:+ "sklearn" +:+ b))
            = false) as ->.
    { change (String c (a +:+ "sklearn" +:+ b))
        with (String c a +:+ "sklear" +:+ "n" +:+ b).
      rewrite <- string_app_assoc, starts_with_long; [done|].
      rewrite string_app_length.
      change (String.length (String c a)) with (S (String.length a)).
      change (String.length "sklear") with 6.
      change (String.length "sklearn") with 7. lia. }
    change (String c a +:+ "cuml.accel._wrappers.sklearn" +:+
              PyStr.replace_from "sklearn" "cuml.accel._wrappers.sklearn" 0 b)
      with (String c (a +:+ "cuml.accel._wrappers.sklearn" +:+
              PyStr.replace_from "sklearn" "cuml.accel._wrappers.sklearn" 0 b)).
    f_equal. by apply IH.
Qed.

(** X11.  For a module name that is the token [sklearn] followed by a rest
    in which the token does not occur again (as in [sklearn.ensemble] and
    in every submodule path without a second [sklearn]), the wrapper name
    derived at line 99 is the wrapper namespace followed by the same rest:
    only the leading token is exchanged, as the comment of lines 97-98
    describes. *)
Theorem wrapper_module_prefix_rule (rest : string) :
  PyStr.occurs "sklearn" rest = false ->
  wrapper_module ("sklearn" +:+ rest) = "cuml.accel._wrappers.sklearn" +:+ rest
  /\ wrapper_module ("sklearn" +:+ rest) = spec_wrapper_module ("sklearn" +:+ rest).
Proof.
  intros Habs.
  rewrite spec_wrapper_module_leading, wrapper_module_leading_only; done.
Qed.

Lemma wrapper_module_prefix_rule_witness :
  PyStr.occurs "sklearn" ".linear_model" = false
  /\ wrapper_module "sklearn.linear_model"
     = "cuml.accel._wrappers.sklearn.linear_model".
Proof.
  split; [reflexivity|].
  apply (proj1 (wrapper_module_prefix_rule ".linear_model" eq_refl)).
Defined.

(** X12.  A name in which the token [sklearn] does not occur is its own
    wrapper name: line 99 returns it unchanged, so that [register] is
    called with the same name twice. *)
Theorem wrapper_module_without_token (module_name : string) :
  PyStr.occurs "sklearn" module_name = false ->
  wrapper_module module_name = module_name.
Proof. intros Habs. by apply replace_from_absent. Qed.

Lemma wrapper_module_without_token_witness :
  PyStr.occurs "sklearn" "xgboost.core" = false
  /\ wrapper_module "xgboost.core" = "xgboost.core".
Proof.
  split; [reflexivity|]. by apply wrapper_module_without_token.
Defined.

(** X13.  Line 99 exchanges the token wherever it stands, not only at the
    start: for a name [a ++ "sklearn" ++ b] whose first occurrence of the
    token is the one after [a], the wrapper name is [a], the wrapper
    namespace token, and the wrapper name of [b].  Together with X12 this
    gives the wrapper name of every string. *)
Theorem wrapper_module_first_occurrence (a b : string) :
  PyStr.occurs "sklearn" (a +:+ "sklear") = false ->
  wrapper_module (a +:+ "sklearn" +:+ b)
  = a +:+ "cuml.accel._wrappers.sklearn" +:+ wrapper_module b.
Proof. intros Hocc. by apply replace_token_first. Qed.

Lemma wrapper_module_first_occurrence_witness :
  PyStr.occurs "sklearn" ("my" +:+ "sklear") = false
  /\ wrapper_module "mysklearn.tools"
     = "mycuml.accel._wrappers.sklearn.tools".
Proof.
  split; [reflexivity|].
  exact (wrapper_module_first_occurrence "my" ".tools" eq_refl).
Defined.

(** ** The package's import *)

(** X14.  Importing [autogluon.common] runs the availability check once and
    drops its answer: the import goes on whether the acceleration package
    was found or is missing (its import raised [ImportError]), but an
    import of the acceleration package that fails with any other exception
    makes the import of [autogluon.common] fail with that exception.  In
    every case no module is activated and no instance is stored. *)
Theorem package_precheck_outcome (ext : external) (p : process) :
  let '(r, p') := package_precheck ext p in
  r = match import_cuml_accel ext with
      | Return _ => Return tt
      | Raise e => if isinstance_ImportError e then Return tt else Raise e
      end
  /\ heap p' = heap p
  /\ _activated_modules p' = _activated_modules p
  /\ activated p' = activated p
  /\ _accelerator p' = _accelerator p
  /\ events_since p p'
     = [Called ImportCumlAccel (raised (import_cuml_accel ext))].
Proof.
  unfold package_precheck, mbind, Py_bind, mret, Py_ret.
  rewrite is_cuml_accel_available_cases.
  destruct (import_cuml_accel ext) as [[]|e].
  - split_and!; try done. apply events_since_journalled.
  - destruct (isinstance_ImportError e); split_and!; try done;
      apply events_since_journalled.
Qed.

(** ** The demo *)

Lemma model_choices_cases (model : string) :
  model ∈ model_choices <-> model = "rf" \/ model = "knn" \/ model = "lr".
Proof.
  unfold model_choices.
  rewrite !elem_of_cons, elem_of_nil. tauto.
Qed.

Lemma fitted_head (tp : predictor) (req : fit_request) :
  head (snd (match fit_outcome tp req with
             | Raise e => (Raise e, [Fit req])
             | Return _ =>
                 match leaderboard_outcome tp with
                 | Raise e => (Raise e, [Fit req; Leaderboard])
                 | Return _ =>
                     (Return tt, [Fit req; Leaderboard; Print demo_complete])
                 end
             end : outcome unit * list demo_call))
  = Some (Fit req).
Proof. by destruct (fit_outcome tp req), (leaderboard_outcome tp). Qed.

(** X15.  The cases of the [match] are the values that the command line
    lets through: [_run_autogluon_demo] calls [fit] exactly for the model
    strings of the [click.Choice] list of line 58, and ends with the
    [ValueError] of line 50, without any call, exactly for the others; so
    the last case cannot be reached from the command line. *)
Theorem demo_handles_exactly_the_choices (tp : predictor) (model : string)
    (num_gpus : Z) :
  (model ∈ model_choices
   <-> exists req,
         head (snd (_run_autogluon_demo tp model num_gpus)) = Some (Fit req))
  /\ (~ model ∈ model_choices
      <-> _run_autogluon_demo tp model num_gpus
          = (Raise (Exc ValueError ("Invalid model: " +:+ model)), [])).
Proof.
  rewrite model_choices_cases. unfold _run_autogluon_demo.
  destruct (String.eqb_spec model "rf") as [->|Hrf].
  { rewrite fitted_head. split; split; try by eauto.
    - intros H. destruct H. by left.
    - by destruct (fit_outcome tp _), (leaderboard_outcome tp). }
  destruct (String.eqb_spec model "knn") as [->|Hknn].
  { rewrite fitted_head. split; split; try by eauto.
    - intros H. destruct H. right. by left.
    - by destruct (fit_outcome tp _), (leaderboard_outcome tp). }
  destruct (String.eqb_spec model "lr") as [->|Hlr].
  { rewrite fitted_head. split; split; try by eauto.
    - intros H. destruct H. right. by right.
    - by destruct (fit_outcome tp _), (leaderboard_outcome tp). }
  split; split.
  - by intros [?|[?|?]].
  - by intros (req & Hreq).
  - done.
  - by intros _ [?|[?|?]].
Qed.

(** X16.  For each of the three models the request passed to [fit] has the
    same shape: label column [target], a model directory
    [/tmp/demo_<model>], a time limit of 15, one hyperparameter key, no
    bagging and no stacking, verbosity 2, and the number of GPUs exactly as
    [_run_autogluon_demo] received it. *)
Theorem demo_fit_request (tp : predictor) (model : string) (num_gpus : Z) :
  model ∈ model_choices ->
  exists req,
    head (snd (_run_autogluon_demo tp model num_gpus)) = Some (Fit req)
    /\ fit_label req = "target"
    /\ fit_path req = "/tmp/demo_" +:+ model
    /\ fit_time_limit req = 15
    /\ length (fit_hyperparameters req) = 1
    /\ fit_num_bag_folds req = 0
    /\ fit_num_stack_levels req = 0
    /\ fit_verbosity req = 2
    /\ fit_num_gpus req = num_gpus.
Proof.
  intros [-> | [-> | ->]]%model_choices_cases; unfold _run_autogluon_demo;
    cbn [String.eqb Ascii.eqb Bool.eqb]; rewrite fitted_head;
    eexists; (split; [reflexivity|]); by split_and!.
Qed.

Lemma demo_fit_request_witness :
  ("knn" ∈ model_choices)
  /\ exists req,
       head (snd (_run_autogluon_demo predictor_works "knn" 2))
       = Some (Fit req)
       /\ fit_path req = "/tmp/demo_knn" /\ fit_num_gpus req = 2%Z.
Proof.
  assert ("knn" ∈ model_choices) as Hin
    by apply list_elem_of_further, list_elem_of_here.
  split; [exact Hin|].
  destruct (demo_fit_request predictor_works "knn" 2 Hin)
    as (req & Hreq & _ & Hpath & _ & _ & _ & _ & _ & Hgpu).
  exists req. by split_and!.
Defined.

(** X17.  How the demo ends.  The run returns exactly when the completion
    message is printed, which happens last and only after [fit] and
    [leaderboard] have both returned; an exception raised by [fit] ends the
    run with that exception before [leaderboard] is called, and an
    exception raised by [leaderboard] ends it before anything is printed. *)
Theorem demo_outcome (tp : predictor) (model : string) (num_gpus : Z) :
  let '(r, calls) := _run_autogluon_demo tp model num_gpus in
  (r = Return tt <-> Print demo_complete ∈ calls)
  /\ (r = Return tt <-> last calls = Some (Print demo_complete))
  /\ (forall req e,
        head calls = Some (Fit req) -> fit_outcome tp req = Raise e ->
        r = Raise e /\ calls = [Fit req])
  /\ (forall req u e,
        head calls = Some (Fit req) -> fit_outcome tp req = Return u ->
        leaderboard_outcome tp = Raise e ->
        r = Raise e /\ calls = [Fit req; Leaderboard]).
Proof.
  assert (forall req : fit_request,
    let '(r, calls) :=
      (match fit_outcome tp req with
       | Raise e => (Raise e, [Fit req])
       | Return _ =>
           match leaderboard_outcome tp with
           | Raise e => (Raise e, [Fit req; Leaderboard])
           | Return _ =>
               (Return tt, [Fit req; Leaderboard; Print demo_complete])
           end
       end : outcome unit * list demo_call) in
    (r = Return tt <-> Print demo_complete ∈ calls)
    /\ (r = Return tt <-> last calls = Some (Print demo_complete))
    /\ (forall req' e,
          head calls = Some (Fit req') -> fit_outcome tp req' = Raise e ->
          r = Raise e /\ calls = [Fit req'])
    /\ (forall req' u e,
          head calls = Some (Fit req') -> fit_outcome tp req' = Return u ->
          leaderboard_outcome tp = Raise e ->
          r = Raise e /\ calls = [Fit req'; Leaderboard])) as Hfitted.
  { intros req.
    destruct (fit_outcome tp req) as [[]|e1] eqn:Hfit;
      [destruct (leaderboard_outcome tp) as [[]|e2] eqn:Hlb|].
    - split_and!.
      + split; [intros _|done]. do 2 apply list_elem_of_further.
        apply list_elem_of_here.
      + done.
      + intros req' e [= <-] He. by rewrite Hfit in He.
      + by intros req' u e [= <-] _ He.
    - split_and!.
      + split; [done|]. intros Hin.
        apply elem_of_cons in Hin as [Hin|Hin]; [done|].
        apply elem_of_cons in Hin as [Hin|Hin]; [done|].
        by apply elem_of_nil in Hin.
      + done.
      + intros req' e [= <-] He. by rewrite Hfit in He.
      + intros req' u e [= <-] _ [= <-]. done.
    - split_and!.
      + split; [done|]. intros Hin.
        apply elem_of_cons in Hin as [Hin|Hin]; [done|].
        by apply elem_of_nil in Hin.
      + done.
      + intros req' e [= <-] He. rewrite Hfit in He.
        by injection He as <-.
      + intros req' u e [= <-] He. by rewrite Hfit in He. }
  unfold _run_autogluon_demo.
  destruct (String.eqb model "rf"); [apply Hfitted|].
  destruct (String.eqb model "knn"); [apply Hfitted|].
  destruct (String.eqb model "lr"); [apply Hfitted|].
  split_and!; try done.
  split; [done|]. intros Hin. by apply elem_of_nil in Hin.
Qed.

Lemma demo_outcome_witness :
  let req := demo_fit "target" "/tmp/demo_rf" "RF" 1 in
  fit_outcome predictor_fit_fails req = Raise out_of_memory
  /\ _run_autogluon_demo predictor_fit_fails "rf" 1
     = (Raise out_of_memory, [Fit req]).
Proof.
  intros req. split; [reflexivity|].
  pose proof (demo_outcome predictor_fit_fails "rf" 1) as H.
  destruct (_run_autogluon_demo predictor_fit_fails "rf" 1) as [r calls] eqn:Hrun.
  destruct H as (_ & _ & Hfit & _).
  destruct (Hfit req out_of_memory) as [-> ->]; try done.
  by injection Hrun as <- <-.
Defined.

(** ** The command *)

Lemma demo_calls_in (pre closing : list main_call) (dcalls : list demo_call)
    (c : demo_call) :
  (forall d, Demo d ∉ pre) ->
  (forall d, Demo d ∉ closing) ->
  Demo c ∈ pre ++ (Demo <$> dcalls) ++ closing <-> c ∈ dcalls.
Proof.
  intros Hpre Hclosing. rewrite !elem_of_app, list_elem_of_fmap. split.
  - intros [Hin|[(d & [= ->] & Hd)|Hin]]; [by apply Hpre in Hin|done|].
    by apply Hclosing in Hin.
  - intros Hc. right. left. by exists c.
Qed.

(** X18.  With [--profile], once the profiling context has been entered it
    is always closed: whatever the demo does, [__exit__] is the last call
    that [main] makes, and it is told the exception the demo raised, if
    any.  Between entering and closing, the calls are those of the demo.
    [main] then ends with the exception [__exit__] raised, if it raised
    one; otherwise with the demo's exception unless [__exit__] swallowed
    it; otherwise it returns. *)
Theorem main_closes_profile (pf : profiler) (tp : predictor) (model : string)
    (num_gpus : Z) (r : outcome unit) (calls : list main_call) :
  main pf tp model num_gpus true = (r, calls) ->
  ProfileEnter None ∈ calls ->
  let rd := fst (_run_autogluon_demo tp model num_gpus) in
  last calls
  = Some (ProfileExit (raised rd) (raised (profile_exit pf (raised rd))))
  /\ (forall c, Demo c ∈ calls
                <-> c ∈ snd (_run_autogluon_demo tp model num_gpus))
  /\ r = match profile_exit pf (raised rd), rd with
         | Raise e', _ => Raise e'
         | Return _, Return _ => Return tt
         | Return b, Raise e => if b then Return tt else Raise e
         end.
Proof.
  unfold main.
  destruct (user_import_cuml_accel pf) as [[]|e1].
  2: { intros [= <- <-] Hin. by in_events Hin. }
  destruct (profile_new pf) as [[]|e2].
  2: { intros [= <- <-] Hin. by in_events Hin. }
  destruct (profile_enter pf) as [[]|e3].
  2: { intros [= <- <-] Hin. by in_events Hin. }
  destruct (_run_autogluon_demo tp model num_gpus) as [rd dcalls].
  cbn [fst snd]. unfold with_exit.
  assert (forall d, Demo d ∉ [UserImport None; ProfileNew None;
                             ProfileEnter None]) as Hpre.
  { intros d Hd. by in_events Hd. }
  destruct rd as [[]|e]; cbn [raised].
  - destruct (profile_exit pf None) as [b|e']; intros [= <- <-] _;
      (split_and!;
       [by rewrite !app_comm_cons, last_snoc
       |intros c;
        apply (demo_calls_in [UserImport None; ProfileNew None;
                              ProfileEnter None]);
        [done|intros d Hd; by in_events Hd]
       |done]).
  - destruct (profile_exit pf (Some e)) as [[]|e']; intros [= <- <-] _;
      (split_and!;
       [by rewrite !app_comm_cons, last_snoc
       |intros c;
        apply (demo_calls_in [UserImport None; ProfileNew None;
                              ProfileEnter None]);
        [done|intros d Hd; by in_events Hd]
       |done]).
Qed.

Lemma main_closes_profile_witness :
  let run := main profiler_works predictor_fit_fails "rf" 0 true in
  (ProfileEnter None ∈ snd run)
  /\ last (snd run) = Some (ProfileExit (Some out_of_memory) None)
  /\ fst run = Raise out_of_memory.
Proof.
  intros run.
  assert (ProfileEnter None ∈ snd run) as Hin.
  { vm_compute. do 2 apply list_elem_of_further. apply list_elem_of_here. }
  split; [exact Hin|].
  destruct (main_closes_profile profiler_works predictor_fit_fails "rf" 0
              (fst run) (snd run)) as (Hlast & _ & Hr).
  - symmetry. apply surjective_pairing.
  - exact Hin.
  - split; [exact Hlast|exact Hr].
Defined.

(** X19.  With [--profile], the demo never runs outside the profiling
    context: when the import of [cuml.accel] (line 65, not guarded: also an
    [ImportError] gets through), the construction of the context or its
    [__enter__] raises, [main] ends with an exception without a single
    call of the demo and without calling [__exit__]. *)
Theorem main_no_demo_outside_profile (pf : profiler) (tp : predictor)
    (model : string) (num_gpus : Z) (r : outcome unit)
    (calls : list main_call) :
  main pf tp model num_gpus true = (r, calls) ->
  ProfileEnter None ∉ calls ->
  (exists e, r = Raise e
             /\ (last calls = Some (UserImport (Some e))
                 \/ last calls = Some (ProfileNew (Some e))
                 \/ last calls = Some (ProfileEnter (Some e))))
  /\ (forall c, Demo c ∉ calls)
  /\ (forall in_flight answer, ProfileExit in_flight answer ∉ calls).
Proof.
  unfold main.
  destruct (user_import_cuml_accel pf) as [[]|e1].
  2: { intros [= <- <-] _. split_and!.
       - exists e1. split; [done|]. by left.
       - intros c Hc. by in_events Hc.
       - intros i a Hc. by in_events Hc. }
  destruct (profile_new pf) as [[]|e2].
  2: { intros [= <- <-] _. split_and!.
       - exists e2. split; [done|]. right. by left.
       - intros c Hc. by in_events Hc.
       - intros i a Hc. by in_events Hc. }
  destruct (profile_enter pf) as [[]|e3].
  2: { intros [= <- <-] _. split_and!.
       - exists e3. split; [done|]. right. by right.
       - intros c Hc. by in_events Hc.
       - intros i a Hc. by in_events Hc. }
  destruct (_run_autogluon_demo tp model num_gpus) as [rd dcalls].
  destruct (with_exit pf rd) as [r' closing].
  intros [= <- <-] Hno. destruct Hno.
  do 2 apply list_elem_of_further. apply list_elem_of_here.
Qed.

Lemma main_no_demo_outside_profile_witness :
  let run := main profiler_missing predictor_works "rf" 0 true in
  (ProfileEnter None ∉ snd run)
  /\ fst run = Raise no_module
  /\ snd run = [UserImport (Some no_module)].
Proof.
  intros run.
  assert (ProfileEnter None ∉ snd run) as Hno.
  { vm_compute. intros Hin. by in_events Hin. }
  split; [exact Hno|].
  destruct (main_no_demo_outside_profile profiler_missing predictor_works
              "rf" 0 (fst run) (snd run)) as ((e & Hr & _) & _ & _).
  - symmetry. apply surjective_pairing.
  - exact Hno.
  - split; [|reflexivity]. rewrite Hr. vm_compute in Hr. by injection Hr as <-.
Defined.
